(** * H Translator: the background service shell (h_translator_service.pyw)

    A shallow embedding of the service module: start-up credential gate
    ([init_translator]), the manual translation window
    ([ManualTranslationWindow]) and the hot-key entry point ([do_translate]).

    Python values are modelled as follows.
    - user text ([str] holding arbitrary Unicode): a list of code points;
    - identifiers, language codes, model labels, credentials: [string];
    - Python [int]: [Z];
    - module globals and widget attributes: fields of explicit state records,
      threaded through every function;
    - [try/except/finally]: sums and explicit outcome values. *)

From Stdlib Require Import ZArith NArith List Ascii String Bool Lia.
Import ListNotations.

#[local] Open Scope string_scope.
#[local] Open Scope list_scope.
#[local] Open Scope Z_scope.

(** ** Python strings holding user text *)

Module PyStr.

(** A Python [str] is a sequence of Unicode code points. *)
Definition codepoint := N.
Definition text := list codepoint.

(** [str.isspace] for one character: CPython's [_PyUnicode_IsWhitespace]. *)
Definition isspace (c : codepoint) : bool :=
  ((9 <=? c) && (c <=? 13) || (28 <=? c) && (c <=? 32)
   || (c =? 133) || (c =? 160) || (c =? 5760)
   || (8192 <=? c) && (c <=? 8202)
   || (c =? 8232) || (c =? 8233) || (c =? 8239) || (c =? 8287)
   || (c =? 12288))%N.

(** [str.lstrip()], [str.rstrip()] and [str.strip()] without argument. *)
Fixpoint lstrip (s : text) : text :=
  match s with
  | [] => []
  | c :: s' => if isspace c then lstrip s' else s
  end.

Definition rstrip (s : text) : text := rev (lstrip (rev s)).

Definition strip (s : text) : text := lstrip (rstrip s).

(** Truth value of a [str]: non-empty. *)
Definition truthy (s : text) : bool :=
  match s with [] => false | _ :: _ => true end.

(** [len(s)]. *)
Definition len (s : text) : Z := Z.of_nat (List.length s).

(** Text made of white space only (the empty text included). *)
Definition blank (s : text) : Prop := Forall (fun c => isspace c = true) s.

End PyStr.
Export PyStr.

(** ** Small Python idioms on identifiers *)

(** Exceptions are carried by their message. *)
Definition exn := string.

(** Truth value of an identifier-like [str]. *)
Definition str_truthy (s : string) : bool := negb (s =? "")%string.

(** [s in (a, b, ...)] and [s in some_list]. *)
Definition str_in (s : string) (l : list string) : bool :=
  existsb (String.eqb s) l.

(** [d.get(key, "")] on an optional entry. *)
Definition get_or_empty (o : option string) : string :=
  match o with Some s => s | None => "" end.

(** [lst.index(x)]: position of the first occurrence, [None] for
    [ValueError]. *)
Fixpoint index_of (x : string) (l : list string) : option Z :=
  match l with
  | [] => None
  | y :: l' =>
      if (y =? x)%string then Some 0
      else match index_of x l' with
           | Some i => Some (i + 1)
           | None => None
           end
  end.

(** Python indexing [l[i]] with an [int]: negative indices count from the
    end; [None] stands for [IndexError]. *)
Definition py_getitem {A} (l : list A) (i : Z) : option A :=
  let n := Z.of_nat (List.length l) in
  if i <? 0 then
    if i + n <? 0 then None else nth_error l (Z.to_nat (i + n))
  else nth_error l (Z.to_nat i).

(** ** Configuration, as [load_config] hands it over *)

Module Config.

(** One entry of [config["api"]["providers"]]. *)
Record ProviderEntry := {
  name : string;
  model : string;
  api_key : option string      (* absent key: [p.get("api_key", "")] *)
}.

(** [config["api"]]: either the providers-array format or the older
    single-key format. *)
Record ApiConfig := {
  providers : option (list ProviderEntry);   (* ["providers" in api_config] *)
  single_api_key : option string             (* [api_config.get("api_key", "")] *)
}.

Record Config := {
  api : option ApiConfig        (* absent: [config.get("api", {})] *)
}.

Definition empty_api : ApiConfig :=
  {| providers := None; single_api_key := None |}.

Definition api_or_empty (c : Config) : ApiConfig :=
  match api c with Some a => a | None => empty_api end.

End Config.

(** The sentinel strings shipped in the sample configuration. *)
Definition placeholder_keys : list string :=
  ["YOUR_API_KEY_HERE"; "YOUR_OPENAI_API_KEY"; "YOUR_ANTHROPIC_API_KEY"].

(** The test of one provider inside the loop of [init_translator]:
    [key and key not in (...)]. *)
Definition provider_key_ok (p : Config.ProviderEntry) : bool :=
  let key := get_or_empty (Config.api_key p) in
  str_truthy key && negb (str_in key placeholder_keys).

(** [for p in api_config["providers"]: ... has_valid_key = True; break]. *)
Fixpoint scan_providers (ps : list Config.ProviderEntry) : bool :=
  match ps with
  | [] => false
  | p :: ps' => if provider_key_ok p then true else scan_providers ps'
  end.

(** Lines 113-124 of [init_translator]: the value of [has_valid_key] when
    the gate [if not has_valid_key] is reached. *)
Definition has_valid_key (api_config : Config.ApiConfig) : bool :=
  match Config.providers api_config with
  | Some ps => scan_providers ps
  | None =>
      let key := get_or_empty (Config.single_api_key api_config) in
      str_truthy key && negb (key =? "YOUR_API_KEY_HERE")%string
  end.

(** ** The translator object, as the service uses it

    [core/translator.py] is not part of this module; the record lists the
    attributes the service reads and writes ([providers],
    [current_provider_index], [last_usage]), the direction stored by
    [set_translation_direction], and a log of the calls made to the
    [on_model_switch] hook handed over at construction. *)

Record Provider := {
  name : string;
  model : string;
  credential : string
}.

Inductive SwitchReason := user_selected | failover.

Record SwitchEvent := {
  old_model : string;
  new_model : string;
  reason : SwitchReason
}.

Record Translator := {
  providers : list Provider;
  current_provider_index : Z;
  direction : option (string * string);
  last_usage : option Z;                 (* [total_tokens], when reported *)
  switch_log : list SwitchEvent          (* newest first *)
}.

(** The translator with its active index replaced, everything else kept. *)
Definition set_current_provider_index (i : Z) (t : Translator) : Translator :=
  {| providers := providers t;
     current_provider_index := i;
     direction := direction t;
     last_usage := last_usage t;
     switch_log := switch_log t |}.

(** [f"{p['name']}:{p['model']}"], the label shown in the model combobox. *)
Definition model_label (p : Provider) : string :=
  name p ++ ":" ++ model p.

(** Modelled from the spec: the [current_model] property of the absent
    [Translator] class, the "current model label" derived from the active
    index; [None] stands for the [IndexError] of an invalid index. *)
Definition current_model (t : Translator) : option string :=
  option_map model_label (py_getitem (providers t) (current_provider_index t)).

(** The pool invariant of the data model: the active index designates a
    provider (hence the sequence is not empty). *)
Definition valid_index (t : Translator) : Prop :=
  0 <= current_provider_index t < Z.of_nat (List.length (providers t)).

(** Modelled from the spec: the assignment
    [translator.current_provider_index = i] on the absent [Translator]
    class, an explicit selection in the sense of sections 3 and 4.4: the
    index is stored, and a [SwitchEvent] with the old and the new model
    label and the reason [user_selected] is emitted exactly when the index
    changes. *)
Definition assign_current_provider_index (i : Z) (t : Translator)
  : Translator :=
  if i =? current_provider_index t then set_current_provider_index i t
  else
    {| providers := providers t;
       current_provider_index := i;
       direction := direction t;
       last_usage := last_usage t;
       switch_log :=
         {| old_model := get_or_empty (current_model t);
            new_model :=
              get_or_empty (current_model (set_current_provider_index i t));
            reason := user_selected |} :: switch_log t |}.

(** ** Start-up: [init_translator] *)

(** Module globals of the service. *)
Record Globals := {
  translator : option Translator;
  config : option Config.Config;
  is_translating : bool
}.

Definition set_translator (o : option Translator) (g : Globals) : Globals :=
  {| translator := o; config := config g; is_translating := is_translating g |}.

Definition set_config (o : option Config.Config) (g : Globals) : Globals :=
  {| translator := translator g; config := o;
     is_translating := is_translating g |}.

Definition set_is_translating (b : bool) (g : Globals) : Globals :=
  {| translator := translator g; config := config g; is_translating := b |}.

(** What the file system answers during start-up. *)
Record Disk := {
  config_exists : bool;                       (* [config_path.exists()] *)
  load_config : exn + Config.Config           (* [load_config(path)] *)
}.

Inductive InitMessage :=
| MsgConfigNotFound
| MsgConfigLoadFailed (e : exn)
| MsgApiKeyMissing
| MsgInitFailed (e : exn)
| MsgOK.

Inductive InitResult :=
| InitReturned (success : bool) (message : InitMessage)
| InitRaised (e : exn).

Section Init.

(** [Translator(config, on_model_switch=...)], which may raise. *)
Variable Translator_new : Config.Config -> exn + Translator.

(** Lines 137-153: loading the dictionary and the system prompt into the
    fresh translator ([set_dictionary], [load_system_prompt]); an
    exception there is not caught by [init_translator]. *)
Variable load_prompts : Disk -> Config.Config -> Translator ->
                        Translator * option exn.

Definition init_translator (d : Disk) (g : Globals) : Globals * InitResult :=
  if negb (config_exists d) then
    (g, InitReturned false MsgConfigNotFound)
  else
    match load_config d with
    | inl e => (g, InitReturned false (MsgConfigLoadFailed e))
    | inr cfg =>
        let g := set_config (Some cfg) g in
        let api_config := Config.api_or_empty cfg in
        if negb (has_valid_key api_config) then
          (g, InitReturned false MsgApiKeyMissing)
        else
          match Translator_new cfg with
          | inl e => (g, InitReturned false (MsgInitFailed e))
          | inr t =>
              match load_prompts d cfg t with
              | (t', Some e) => (set_translator (Some t') g, InitRaised e)
              | (t', None) =>
                  (set_translator (Some t') g, InitReturned true MsgOK)
              end
          end
    end.

End Init.

(** ** The state the service works on *)

(** Language codes and their display names ([lang_names.get(code, code)]). *)
Definition lang_names_get (code : string) : string :=
  if (code =? "ja")%string then "일본어"
  else if (code =? "ko")%string then "한국어"
  else if (code =? "en")%string then "영어"
  else code.

(** [s.split(':')[-1]]: what follows the last colon. *)
Fixpoint last_segment_from (acc : string) (s : string) : string :=
  match s with
  | EmptyString => acc
  | String c s' =>
      if Ascii.eqb c ":"%char then last_segment_from "" s'
      else last_segment_from (acc ++ String c "") s'
  end.

Definition last_segment (s : string) : string := last_segment_from "" s.

(** The texts shown in the status label of the manual window. *)
Inductive Status :=
| StPrompt                               (* "텍스트를 입력하고 번역 버튼을 누르세요" *)
| StEnterSource                          (* "원문을 입력하세요" *)
| StNotInitialised                       (* "번역기가 초기화되지 않았습니다" *)
| StTranslating (source_name target_name : string)
| StFailed (e : exn)                     (* "번역 실패: {e}" *)
| StDone (source_name target_name : string) (char_count token_count : Z)
         (model_name : string) (copied : bool)   (* elapsed time left out *)
| StModelSet (model_name : string)       (* "번역 모델 설정됨: {model_name}" *)
| StCopied.                              (* "클립보드에 복사됨" *)

(** Attributes of a [ManualTranslationWindow]. A [tk.Text] widget is
    represented by its content; [get('1.0', tk.END)] returns the content
    followed by a newline. *)
Record Window := {
  target_lang_var : string;
  model_list : list string;
  model_combo : Z;                       (* [model_combo.current()], -1: none *)
  status_label : Status;
  original_text : text;
  translated_text : text;
  has_translation : bool;
  translate_arrow_btn : string
}.

Definition widget_get (content : text) : text := content ++ [10%N].

Definition set_status (st : Status) (w : Window) : Window :=
  {| target_lang_var := target_lang_var w; model_list := model_list w;
     model_combo := model_combo w; status_label := st;
     original_text := original_text w; translated_text := translated_text w;
     has_translation := has_translation w;
     translate_arrow_btn := translate_arrow_btn w |}.

Definition set_target_lang_var (v : string) (w : Window) : Window :=
  {| target_lang_var := v; model_list := model_list w;
     model_combo := model_combo w; status_label := status_label w;
     original_text := original_text w; translated_text := translated_text w;
     has_translation := has_translation w;
     translate_arrow_btn := translate_arrow_btn w |}.

Definition set_translated_text (s : text) (w : Window) : Window :=
  {| target_lang_var := target_lang_var w; model_list := model_list w;
     model_combo := model_combo w; status_label := status_label w;
     original_text := original_text w; translated_text := s;
     has_translation := has_translation w;
     translate_arrow_btn := translate_arrow_btn w |}.

Definition set_has_translation (b : bool) (arrow : string) (w : Window)
  : Window :=
  {| target_lang_var := target_lang_var w; model_list := model_list w;
     model_combo := model_combo w; status_label := status_label w;
     original_text := original_text w; translated_text := translated_text w;
     has_translation := b; translate_arrow_btn := arrow |}.

(** Calls that leave the service module, in the order they are made. *)
Inductive Call :=
| CallDetect (s : text)                        (* [detect_source_language] *)
| CallSetDirection (source target : string)    (* [set_translation_direction] *)
| CallDetectAndSet (s : text)                  (* [detect_and_set_direction] *)
| CallTranslate (s : text)                     (* [translate_text] *)
| CallSendCopyKey                              (* [keyboard.send('ctrl+c')] *)
| CallPaste                                    (* [pyperclip.paste()] *)
| CallCopy (s : text)                          (* [pyperclip.copy] *)
| CallSaveLog (original translated : text)     (* [save_translation_log] *)
| CallSavePreference (model_name : string)     (* [save_model_preference] *)
| CallErrorPopup (message : string)            (* [show_error_popup] *)
| CallResultPopup (original translated : text) (model_info : string)
                  (tokens : Z).                (* [TranslationPopup(...).show()] *)

(** A call that reaches the translator object. *)
Definition translator_call (c : Call) : bool :=
  match c with
  | CallSetDirection _ _ | CallDetectAndSet _ | CallTranslate _ => true
  | _ => false
  end.

(** Everything outside the window that the service reads or writes. *)
Record Shell := {
  globals : Globals;
  clipboard : text;
  preference : string;                   (* ["preferred_model"] on disk *)
  translations : list (text * text);     (* saved logs, newest first *)
  calls : list Call                      (* newest first *)
}.

Definition with_globals (g : Globals) (s : Shell) : Shell :=
  {| globals := g; clipboard := clipboard s; preference := preference s;
     translations := translations s; calls := calls s |}.

Definition with_translator (t : Translator) (s : Shell) : Shell :=
  with_globals (set_translator (Some t) (globals s)) s.

Definition call (c : Call) (s : Shell) : Shell :=
  {| globals := globals s; clipboard := clipboard s;
     preference := preference s; translations := translations s;
     calls := c :: calls s |}.

Definition with_clipboard (c : text) (s : Shell) : Shell :=
  {| globals := globals s; clipboard := c; preference := preference s;
     translations := translations s; calls := calls s |}.

Definition with_preference (p : string) (s : Shell) : Shell :=
  {| globals := globals s; clipboard := clipboard s; preference := p;
     translations := translations s; calls := calls s |}.

Definition with_translation (o t : text) (s : Shell) : Shell :=
  {| globals := globals s; clipboard := clipboard s;
     preference := preference s; translations := (o, t) :: translations s;
     calls := calls s |}.

(** How the surroundings answer during one handler run. *)
Record Env := {
  selection : option text;     (* what Ctrl+C puts on the clipboard, if any *)
  send_key_error : option exn; (* [keyboard.send] raising *)
  paste_error : option exn;    (* [pyperclip.paste] raising *)
  copy_error : bool;           (* [pyperclip.copy] raising *)
  log_error : bool;            (* [save_translation_log] raising *)
  preference_error : bool;     (* writing the preference file raising *)
  popup_error : option exn     (* a Tk popup raising *)
}.

(** ** Model preference file *)

(** [save_model_preference]: a failed write is swallowed. *)
Definition save_model_preference (env : Env) (model_name : string) (s : Shell)
  : Shell :=
  let s := call (CallSavePreference model_name) s in
  if preference_error env then s else with_preference model_name s.

(** [load_model_preference]: the stored label, [""] when there is none. *)
Definition load_model_preference (s : Shell) : string := preference s.

(** A method of the absent [Translator] class: it may update the object and
    either returns a value or raises. *)
Definition method (A : Type) : Type := Translator -> Translator * (exn + A).

(** ** The manual translation window *)

Module ManualTranslationWindow.

(** [_get_model_list]. *)
Definition _get_model_list (s : Shell) : list string :=
  match translator (globals s) with
  | None => []
  | Some t => map model_label (providers t)
  end.

(** Lines 243-251 of [__init__]: the index chosen from the saved
    preference. *)
Definition default_idx (preferred : string) (models : list string) : Z :=
  if str_truthy preferred && str_in preferred models then
    match index_of preferred models with
    | Some i => i
    | None => 0
    end
  else 0.

(** Lines 243-251 of [__init__], on the translator. *)
Definition apply_preference (preferred : string) (t : Translator)
  : Translator :=
  let models := map model_label (providers t) in
  let idx := default_idx preferred models in
  match models with
  | [] => t
  | _ :: _ =>
      if idx <? Z.of_nat (List.length (providers t)) then
        assign_current_provider_index idx t
      else t
  end.

(** [__init__]: the fresh window and the effect on the globals. *)
Definition __init__ (s : Shell) : Window * Shell :=
  let models := _get_model_list s in
  let preferred := load_model_preference s in
  let w := {| target_lang_var := "ko"; model_list := models;
              model_combo := match models with
                             | [] => -1
                             | _ :: _ => default_idx preferred models
                             end;
              status_label := StPrompt;
              original_text := []; translated_text := [];
              has_translation := false; translate_arrow_btn := "→" |} in
  match translator (globals s) with
  | None => (w, s)
  | Some t => (w, with_translator (apply_preference preferred t) s)
  end.

(** [_on_model_change]. *)
Definition _on_model_change (w : Window) (s : Shell) : Shell :=
  match translator (globals s) with
  | None => s
  | Some t =>
      let selected_idx := model_combo w in
      if (0 <=? selected_idx)
         && (selected_idx <? Z.of_nat (List.length (providers t))) then
        with_translator (assign_current_provider_index selected_idx t) s
      else s
  end.

(** [_on_model_confirm]. The handler has no [raise]; the only exception it
    could let through is the [IndexError] of [current_model], reported as
    [Some]. *)
Definition _on_model_confirm (env : Env) (w : Window) (s : Shell)
  : Window * Shell * option exn :=
  match translator (globals s) with
  | None => (w, s, None)
  | Some t =>
      let selected_idx := model_combo w in
      if (0 <=? selected_idx)
         && (selected_idx <? Z.of_nat (List.length (providers t))) then
        let t := assign_current_provider_index selected_idx t in
        let s := with_translator t s in
        match current_model t with
        | None => (w, s, Some "IndexError")
        | Some model_name =>
            let s := save_model_preference env model_name s in
            (set_status (StModelSet model_name) w, s, None)
        end
      else (w, s, None)
  end.

(** [_on_original_text_change]: a key press or a paste in the source pane
    ends re-translation mode. *)
Definition _on_original_text_change (w : Window) : Window :=
  if has_translation w then set_has_translation false "→" w else w.

(** [do_reset]. *)
Definition do_reset (w : Window) : Window :=
  {| target_lang_var := "ko"; model_list := model_list w;
     model_combo := model_combo w; status_label := StPrompt;
     original_text := []; translated_text := [];
     has_translation := false; translate_arrow_btn := "→" |}.

(** [copy_result]; [pyperclip.copy] is not guarded here, its exception
    leaves the handler. *)
Definition copy_result (env : Env) (w : Window) (s : Shell)
  : Window * Shell * option exn :=
  let txt := strip (widget_get (translated_text w)) in
  if truthy txt then
    let s := call (CallCopy txt) s in
    if copy_error env then (w, s, Some "PyperclipException")
    else (set_status StCopied w, with_clipboard txt s, None)
  else (w, s, None).

Section Translate.

(** [core.file_handler.detect_source_language], absent here. *)
Variable detect_source_language : text -> string.

(** [Translator.set_translation_direction] and
    [Translator.translate_text], absent here. *)
Variable set_translation_direction : string -> string -> method unit.
Variable translate_text : text -> method text.

(** Lines 416-430 of [do_translate]: the detected source, the target,
    and the value left in the target radio variable. *)
Definition resolve_direction (txt : text) (target_var : string)
  : string * string * string :=
  let source := detect_source_language txt in
  let source := if (source =? "unknown")%string then "en" else source in
  if (source =? "ko")%string then (source, "ja", "ja")
  else if str_in source ["ja"; "en"] then (source, "ko", "ko")
  else (source, target_var, target_var).

(** Lines 391-404: in re-translation mode the previous result becomes
    the new source text. *)
Definition move_translation_back (w : Window) : Window :=
  if has_translation w then
    let translated := strip (widget_get (translated_text w)) in
    if truthy translated then
      {| target_lang_var := target_lang_var w;
         model_list := model_list w; model_combo := model_combo w;
         status_label := status_label w;
         original_text := translated; translated_text := [];
         has_translation := false; translate_arrow_btn := "→" |}
    else w
  else w.

(** Line 406: the text that is going to be translated. *)
Definition input_text (w : Window) : text :=
  strip (widget_get (original_text (move_translation_back w))).

(** Lines 453-489: showing a result. *)
Definition show_result (env : Env) (source target : string)
           (txt translated : text) (t : Translator)
           (w : Window) (s : Shell) : Window * Shell * option exn :=
  let w := set_translated_text translated w in
  let token_count := match last_usage t with Some n => n | None => 0 end in
  match current_model t with
  | None => (w, s, Some "IndexError")
  | Some label =>
      let model_name := last_segment label in
      let s := call (CallCopy translated) s in
      let s := if copy_error env then s
               else with_clipboard translated s in
      let w := set_status
                 (StDone (lang_names_get source) (lang_names_get target)
                         (len txt) token_count model_name
                         (negb (copy_error env))) w in
      let s := call (CallSaveLog txt translated) s in
      let s := if log_error env then s
               else with_translation txt translated s in
      (set_has_translation true "↔" w, s, None)
  end.

(** [do_translate]; the third component is an exception that the
    handler lets through. *)
Definition do_translate (env : Env) (w : Window) (s : Shell)
  : Window * Shell * option exn :=
  let w := move_translation_back w in
  let txt := strip (widget_get (original_text w)) in
  if negb (truthy txt) then (set_status StEnterSource w, s, None)
  else
    match translator (globals s) with
    | None => (set_status StNotInitialised w, s, None)
    | Some t =>
        let s := call (CallDetect txt) s in
        let '(source, target, target_var) :=
          resolve_direction txt (target_lang_var w) in
        let w := set_target_lang_var target_var w in
        let s := call (CallSetDirection source target) s in
        match set_translation_direction source target t with
        | (t, inl e) => (w, with_translator t s, Some e)
        | (t, inr _) =>
            let w := set_status (StTranslating (lang_names_get source)
                                               (lang_names_get target)) w in
            let s := call (CallTranslate txt) s in
            match translate_text txt t with
            | (t, inl e) =>
                (set_status (StFailed e) w, with_translator t s, None)
            | (t, inr translated) =>
                show_result env source target txt translated t w
                            (with_translator t s)
            end
        end
    end.

End Translate.

End ManualTranslationWindow.

(** ** The hot-key entry point *)

Section Hotkey.

(** [Translator.detect_and_set_direction] and [Translator.translate_text],
    absent here. *)
Variable detect_and_set_direction : text -> method (string * string).
Variable translate_text : text -> method text.

Definition newline : string := String "010"%char "".

(** [show_error_popup]: blocks until the popup is closed. *)
Definition show_error_popup (env : Env) (message : string) (s : Shell)
  : Shell * option exn :=
  (call (CallErrorPopup message) s, popup_error env).

(** Lines 740-758 of [do_translate]. *)
Definition report (env : Env) (txt translated : text) (t : Translator)
           (s : Shell) : Shell * option exn :=
  let s := call (CallCopy translated) s in
  let s := if copy_error env then s else with_clipboard translated s in
  let s := call (CallSaveLog txt translated) s in
  let s := if log_error env then s else with_translation txt translated s in
  match current_model t with
  | None => (s, Some "IndexError")
  | Some model_info =>
      let token_count := match last_usage t with Some n => n | None => 0 end in
      (call (CallResultPopup txt translated model_info token_count) s,
       popup_error env)
  end.

(** The [try] block of [do_translate] (lines 707-758), the two
    [time.sleep] pauses left out; the second component is an exception
    leaving the block. *)
Definition do_translate_body (env : Env) (s : Shell) : Shell * option exn :=
  match translator (globals s) with
  | None => show_error_popup env "번역기가 초기화되지 않았습니다." s
  | Some t =>
      let s := call CallSendCopyKey s in
      match send_key_error env with
      | Some e => (s, Some e)
      | None =>
          let s := match selection env with
                   | Some sel => with_clipboard sel s
                   | None => s
                   end in
          let s := call CallPaste s in
          match paste_error env with
          | Some e => show_error_popup env ("클립보드 읽기 실패: " ++ e) s
          | None =>
              let txt := clipboard s in
              if negb (truthy txt) || negb (truthy (strip txt)) then
                show_error_popup env
                  ("선택된 텍스트가 없습니다." ++ newline
                   ++ "텍스트를 선택한 후 다시 시도하세요.") s
              else
                let txt := strip txt in
                let s := call (CallDetectAndSet txt) s in
                match detect_and_set_direction txt t with
                | (t, inl e) => (with_translator t s, Some e)
                | (t, inr _) =>
                    let s := call (CallTranslate txt) (with_translator t s) in
                    match translate_text txt t with
                    | (t, inl e) =>
                        show_error_popup env ("번역 실패: " ++ e)
                                         (with_translator t s)
                    | (t, inr translated) =>
                        report env txt translated t (with_translator t s)
                    end
                end
          end
      end
  end.

(** Entering: lines 701-704. [None] is the immediate [return]. *)
Definition enter (s : Shell) : option Shell :=
  if is_translating (globals s) then None
  else Some (with_globals (set_is_translating true (globals s)) s).

(** Leaving: the [finally] clause, line 760. *)
Definition leave (s : Shell) : Shell :=
  with_globals (set_is_translating false (globals s)) s.

(** [do_translate]. *)
Definition do_translate (env : Env) (s : Shell) : Shell * option exn :=
  match enter s with
  | None => (s, None)
  | Some s1 =>
      let '(s2, raised) := do_translate_body env s1 in
      (leave s2, raised)
  end.

End Hotkey.

(** ** The result popup of the hot-key path *)

Module TranslationPopup.

(** The texts shown in the status label of the popup. *)
Inductive PopupStatus :=
| PsInitial (status : string) (model_shown : option string)
            (tokens_shown : option Z)      (* "[{status}] {model}, {tokens}토큰 - 클립보드에 복사됨" *)
| PsNotInitialised                         (* "번역기가 초기화되지 않았습니다" *)
| PsRetranslating (source_name target_name : string)
| PsFailed (e : exn)                       (* "재번역 실패: {e}" *)
| PsRetranslated (source_name target_name model_info : string)
                 (tokens_shown : option Z).

(** Attributes of a [TranslationPopup]; both panes are read-only text
    widgets. *)
Record Popup := {
  popup_status : PopupStatus;
  popup_original : text;
  popup_translated : text
}.

(** [__init__] with its defaults [status="완료"], [model=""], [tokens=0]
    made explicit by the caller. *)
Definition __init__ (original translated : text) (status model_info : string)
           (tokens : Z) : Popup :=
  {| popup_status :=
       PsInitial status
                 (if str_truthy model_info then Some model_info else None)
                 (if 0 <? tokens then Some tokens else None);
     popup_original := original;
     popup_translated := translated |}.

Definition set_popup_status (st : PopupStatus) (p : Popup) : Popup :=
  {| popup_status := st; popup_original := popup_original p;
     popup_translated := popup_translated p |}.

Section Retranslate.

Variable detect_and_set_direction : text -> method (string * string).
Variable translate_text : text -> method text.

(** [do_retranslate]; the third component is an exception that the handler
    lets through. *)
Definition do_retranslate (env : Env) (p : Popup) (s : Shell)
  : Popup * Shell * option exn :=
  match translator (globals s) with
  | None => (set_popup_status PsNotInitialised p, s, None)
  | Some t =>
      let current_translated := strip (widget_get (popup_translated p)) in
      if negb (truthy current_translated) then (p, s, None)
      else
        let s := call (CallDetectAndSet current_translated) s in
        match detect_and_set_direction current_translated t with
        | (t, inl e) => (p, with_translator t s, Some e)
        | (t, inr (source, target)) =>
            let p := set_popup_status
                       (PsRetranslating (lang_names_get source)
                                        (lang_names_get target)) p in
            let s := call (CallTranslate current_translated)
                          (with_translator t s) in
            match translate_text current_translated t with
            | (t, inl e) =>
                (set_popup_status (PsFailed e) p, with_translator t s, None)
            | (t, inr new_translated) =>
                let s := with_translator t s in
                let p := {| popup_status := popup_status p;
                            popup_original := current_translated;
                            popup_translated := new_translated |} in
                let s := call (CallCopy new_translated) s in
                let s := if copy_error env then s
                         else with_clipboard new_translated s in
                match current_model t with
                | None => (p, s, Some "IndexError")
                | Some model_info =>
                    (set_popup_status
                       (PsRetranslated (lang_names_get source)
                                       (lang_names_get target)
                                       model_info (last_usage t)) p,
                     s, None)
                end
            end
        end
  end.

End Retranslate.

End TranslationPopup.

(** ** Saved translation logs *)

(** The [translations] directory: whether it exists, whether it can be
    made and written to, and its files as the texts written to them, newest
    write first, one entry per name. *)
Record LogDir := {
  dir_exists : bool;
  mkdir_ok : bool;               (* [mkdir(exist_ok=True)] succeeds *)
  open_ok : bool;                (* [open(log_file, 'w', ...)] succeeds *)
  files : list (text * text)
}.

Definition with_files (fs : list (text * text)) (d : LogDir) : LogDir :=
  {| dir_exists := dir_exists d; mkdir_ok := mkdir_ok d;
     open_ok := open_ok d; files := fs |}.

(** What the [utf-8] codec of [open(..., encoding='utf-8')] encodes: a
    [str] without surrogate code points. *)
Definition utf8_encodable (content : text) : bool :=
  forallb (fun c => negb ((0xD800 <=? c) && (c <=? 0xDFFF))%N) content.

(** Reading a file by name. *)
Fixpoint read_file (file_name : text) (fs : list (text * text)) : option text :=
  match fs with
  | [] => None
  | (n, c) :: fs' =>
      if list_eq_dec N.eq_dec n file_name then Some c
      else read_file file_name fs'
  end.

(** [open(path, 'w')] followed by [write]: the file is created or
    replaced. *)
Definition write_file (file_name content : text) (fs : list (text * text))
  : list (text * text) :=
  (file_name, content)
    :: filter (fun e => if list_eq_dec N.eq_dec (fst e) file_name
                        then false else true) fs.

(** "[원문]", "[번역]", "[시간] " and ".txt" as code points. *)
Definition header_original : text := [91; 0xC6D0; 0xBB38; 93]%N.
Definition header_translated : text := [91; 0xBC88; 0xC5ED; 93]%N.
Definition header_time : text := [91; 0xC2DC; 0xAC04; 93; 32]%N.
Definition txt_suffix : text := [46; 116; 120; 116]%N.

Section Log.

(** [datetime] values and [datetime.strftime]. *)
Variable datetime : Type.
Variable strftime : datetime -> string -> text.

(** The text written to a log file. *)
Definition log_content (now2 : datetime) (original translated : text) : text :=
  header_original ++ [10%N] ++ original ++ [10%N; 10%N]
  ++ header_translated ++ [10%N] ++ translated ++ [10%N; 10%N]
  ++ header_time ++ strftime now2 "%Y-%m-%d %H:%M:%S" ++ [10%N].

(** [save_translation_log]; [now1] and [now2] are the two readings of
    [datetime.now()], for the file name and for the time line. Returns the
    directory as the call leaves it and the name of the log file; no
    exception is caught here. [open(log_file, 'w')] creates or empties the
    file before [f.write] encodes the content, so a content that the codec
    refuses leaves an empty file behind. *)
Definition save_translation_log (now1 now2 : datetime)
           (original translated : text) (d : LogDir)
  : LogDir * (exn + text) :=
  if negb (mkdir_ok d) then (d, inl "OSError")
  else
    let d := {| dir_exists := true; mkdir_ok := mkdir_ok d;
                open_ok := open_ok d; files := files d |} in
    let timestamp := strftime now1 "%Y%m%d_%H%M%S" in
    let log_file := timestamp ++ txt_suffix in
    let content := log_content now2 original translated in
    if negb (open_ok d) then (d, inl "OSError")
    else if utf8_encodable content then
      (with_files (write_file log_file content (files d)) d, inr log_file)
    else
      (with_files (write_file log_file [] (files d)) d,
       inl "UnicodeEncodeError").

End Log.

(** ** Single instance lock and [main] *)

(** The lock file as [check_already_running] finds it. *)
Inductive LockFile :=
| LockAbsent
| LockUnreadable                 (* exists, but opening or reading raises *)
| LockContent (content : text).

(** What [psutil] reports for a process id. *)
Inductive ProcessInfo :=
| NoProcess                      (* [pid_exists] is false *)
| ProcessDenied                  (* [Process(pid)] or [name()] raises *)
| ProcessNamed (process_name : text).

Record Host := {
  lock : LockFile;
  processes : Z -> ProcessInfo;
  getpid : Z;                    (* [os.getpid()] *)
  lock_writable : bool;          (* [open(LOCK_FILE, 'w')] succeeds *)
  lock_removable : bool          (* [LOCK_FILE.unlink()] succeeds *)
}.

Definition with_lock (l : LockFile) (h : Host) : Host :=
  {| lock := l; processes := processes h; getpid := getpid h;
     lock_writable := lock_writable h; lock_removable := lock_removable h |}.

(** [needle in haystack] on [str]. *)
Fixpoint starts_with (needle s : text) : bool :=
  match needle, s with
  | [], _ => true
  | _ :: _, [] => false
  | a :: needle', b :: s' => (a =? b)%N && starts_with needle' s'
  end.

Fixpoint contains (needle s : text) : bool :=
  starts_with needle s
  || match s with
     | [] => false
     | _ :: s' => contains needle s'
     end.

(** "python" as code points. *)
Definition python_word : text := [112; 121; 116; 104; 111; 110]%N.

(** The messages [main] and [init_translator] hand to [show_error_popup]. *)
Definition already_running_message : string :=
  "H Translator가 이미 실행 중입니다." ++ newline
  ++ "트레이 아이콘을 확인하세요.".

Definition init_message_text (m : InitMessage) : string :=
  match m with
  | MsgConfigNotFound => "설정 파일을 찾을 수 없습니다"
  | MsgConfigLoadFailed e => "설정 파일 로드 실패: " ++ e
  | MsgApiKeyMissing => "config.json에 API 키를 설정해주세요"
  | MsgInitFailed e => "번역기 초기화 실패: " ++ e
  | MsgOK => "OK"
  end.

(** How [main] ends: [sys.exit(code)], an exception, or the tray loop
    [icon.run()] entered with the hot key registered and the first window
    being opened. *)
Inductive MainResult :=
| SysExit (code : Z)
| MainRaised (e : exn)
| TrayRunning.

Section Main.

(** The built-ins [int(s)] ([None]: [ValueError]), [str(n)] and
    [str.lower]. *)
Variable py_int : text -> option Z.
Variable py_str : Z -> text.
Variable py_lower : text -> text.

Variable Translator_new : Config.Config -> exn + Translator.
Variable load_prompts : Disk -> Config.Config -> Translator ->
                        Translator * option exn.

(** [check_already_running]: every exception inside the [try] gives
    [False]. *)
Definition check_already_running (h : Host) : bool :=
  match lock h with
  | LockAbsent => false
  | LockUnreadable => false
  | LockContent content =>
      match py_int (strip content) with
      | None => false
      | Some old_pid =>
          match processes h old_pid with
          | ProcessNamed process_name =>
              contains python_word (py_lower process_name)
          | _ => false
          end
      end
  end.

(** [create_lock]; a failing [open] is not caught. *)
Definition create_lock (h : Host) : Host * option exn :=
  if lock_writable h then
    (with_lock (LockContent (py_str (getpid h))) h, None)
  else (h, Some "PermissionError").

(** [remove_lock]; a failing [unlink] is swallowed. *)
Definition remove_lock (h : Host) : Host :=
  match lock h with
  | LockAbsent => h
  | _ => if lock_removable h then with_lock LockAbsent h else h
  end.

(** [main], up to the point where it exits or enters the tray loop. *)
Definition main (env : Env) (d : Disk) (h : Host) (s : Shell)
  : Host * Shell * MainResult :=
  if check_already_running h then
    match show_error_popup env already_running_message s with
    | (s, Some e) => (h, s, MainRaised e)
    | (s, None) => (h, s, SysExit 0)
    end
  else
    match create_lock h with
    | (h, Some e) => (h, s, MainRaised e)
    | (h, None) =>
        match init_translator Translator_new load_prompts d (globals s) with
        | (g, InitRaised e) => (h, with_globals g s, MainRaised e)
        | (g, InitReturned false message) =>
            match show_error_popup env (init_message_text message)
                                   (with_globals g s) with
            | (s, Some e) => (h, s, MainRaised e)
            | (s, None) => (h, s, SysExit 1)
            end
        | (g, InitReturned true _) => (h, with_globals g s, TrayRunning)
        end
    end.

(** [on_quit]: the lock is removed, the process exits with 0. *)
Definition on_quit (h : Host) : Host * MainResult :=
  (remove_lock h, SysExit 0).

End Main.

(** ** The engine behind the translator object

    [core/translator.py] and [core/file_handler.py] are not part of the
    service module. The definitions of this module follow the specification
    of the engine (sections 4.1, 4.2, 4.4 and 4.5); they give the methods
    called by the service a concrete meaning. *)

Module Engine.

(** Modelled from the spec: membership in a code range, section 4.1. *)
Definition in_range (lo hi c : N) : bool := ((lo <=? c) && (c <=? hi))%N.

(** Modelled from the spec: "Hangul code ranges", section 4.1. *)
Definition is_hangul (c : codepoint) : bool :=
  in_range 0xAC00 0xD7A3 c || in_range 0x1100 0x11FF c
  || in_range 0x3130 0x318F c.

(** Modelled from the spec: "Japanese kana/kanji ranges", section 4.1. *)
Definition is_kana (c : codepoint) : bool := in_range 0x3040 0x30FF c.

(** Modelled from the spec: "Japanese kana/kanji ranges", section 4.1. *)
Definition is_kanji (c : codepoint) : bool := in_range 0x4E00 0x9FFF c.

(** Modelled from the spec: "Latin-alphabet ranges", section 4.1. *)
Definition is_latin (c : codepoint) : bool :=
  in_range 65 90 c || in_range 97 122 c.

(** Modelled from the spec: "count characters falling into" a range,
    section 4.1. *)
Definition count (p : codepoint -> bool) (s : text) : N :=
  N.of_nat (List.length (filter p s)).

(** Modelled from the spec: the Language Detector [detect] of section 4.1
    ([detect_source_language] of the absent [core/file_handler.py]).
    Characters are counted per script; a script wins when it is dominant
    and its share of the non-blank characters reaches the threshold
    [num/den]; kana decide for Japanese before Hangul is considered; no
    winner gives [unknown]. *)
Definition detect (num den : N) (s : text) : string :=
  let total := count (fun c => negb (isspace c)) s in
  let hangul := count is_hangul s in
  let kana := count is_kana s in
  let japanese := (kana + count is_kanji s)%N in
  let latin := count is_latin s in
  let clears (k : N) := ((0 <? k) && (num * total <=? den * k))%N in
  if (total =? 0)%N then "unknown"
  else if (0 <? kana)%N && clears japanese then "ja"
  else if (japanese <=? hangul)%N && (latin <=? hangul)%N && clears hangul
       then "ko"
  else if (latin <=? japanese)%N && clears japanese then "ja"
  else if clears latin then "en"
  else "unknown".

(** Modelled from the spec: the contract of the detector, section 4.1:
    [detect(text) -> {ko, ja, en, unknown}], total. *)
Definition detector_contract (d : text -> string) : Prop :=
  forall s, In (d s) ["ko"; "ja"; "en"; "unknown"].

(** Modelled from the spec: the routing of [resolveAuto], section 4.2:
    Korean goes to Japanese, anything else to Korean. *)
Definition route (source : string) : string :=
  if (source =? "ko")%string then "ja" else "ko".

(** Modelled from the spec: storing the resolver's "current direction",
    section 4.2. *)
Definition set_direction (d : string * string) (t : Translator)
  : Translator :=
  {| providers := providers t;
     current_provider_index := current_provider_index t;
     direction := Some d;
     last_usage := last_usage t;
     switch_log := switch_log t |}.

(** Modelled from the spec: storing the "last usage", step 5 of section
    4.5. *)
Definition set_last_usage (u : option Z) (t : Translator) : Translator :=
  {| providers := providers t;
     current_provider_index := current_provider_index t;
     direction := direction t;
     last_usage := u;
     switch_log := switch_log t |}.

(** Modelled from the spec: [resolveAuto], section 4.2
    ([Translator.detect_and_set_direction], absent). *)
Definition detect_and_set_direction (d : text -> string) (s : text)
  : method (string * string) :=
  fun t =>
    let source := d s in
    let source := if (source =? "unknown")%string then "en" else source in
    let dir := (source, route source) in
    (set_direction dir t, inr dir).

(** Modelled from the spec: [setExplicit], section 4.2 and the
    [InvalidDirection] entry of section 7
    ([Translator.set_translation_direction], absent). *)
Definition set_translation_direction (source target : string) : method unit :=
  fun t =>
    if str_in target ["ko"; "ja"; "en"]
       && str_in source ["ko"; "ja"; "en"; "unknown"] then
      (set_direction (source, target) t, inr tt)
    else (t, inl "InvalidDirection").

(** Modelled from the spec: [active], section 4.4. *)
Definition active (t : Translator) : option Provider :=
  py_getitem (providers t) (current_provider_index t).

(** Modelled from the spec: [advance], section 4.4: one step forward, no
    wrapping, a [failover] event on success. *)
Definition advance (t : Translator) : bool * Translator :=
  let i := current_provider_index t in
  if i + 1 <? Z.of_nat (List.length (providers t)) then
    let t' := set_current_provider_index (i + 1) t in
    (true,
     {| providers := providers t';
        current_provider_index := current_provider_index t';
        direction := direction t';
        last_usage := last_usage t';
        switch_log :=
          {| old_model := get_or_empty (current_model t);
             new_model := get_or_empty (current_model t');
             reason := failover |} :: switch_log t |})
  else (false, t).

(** Modelled from the spec: what the failover loop of section 4.5 ends
    with. *)
Inductive LoopResult :=
| Succeeded (out : text) (usage : option Z)
| Exhausted (last : exn)
| Stuck.                       (* no active provider, or out of fuel *)

Section Translate.

(** The language detector in use. *)
Variable detector : text -> string.

(** The Term Dictionary's [apply] (pre-substitution on the input). *)
Variable substitute : string * string -> text -> text.

(** One request to a provider: a reply with optional token usage, or a
    provider failure. *)
Variable request : Provider -> string * string -> text ->
                   exn + (text * option Z).

(** Modelled from the spec: step 4 of [translate], section 4.5: attempt
    the active provider; on failure [advance] and retry, or give up when
    [advance] returns false. [tried] collects the providers attempted,
    oldest first. *)
Fixpoint attempt_loop (fuel : nat) (dir : string * string) (payload : text)
         (t : Translator) (tried : list Provider)
  : Translator * list Provider * LoopResult :=
  match fuel with
  | O => (t, tried, Stuck)
  | S fuel' =>
      match active t with
      | None => (t, tried, Stuck)
      | Some p =>
          match request p dir payload with
          | inr (out, usage) => (t, tried ++ [p], Succeeded out usage)
          | inl e =>
              match advance t with
              | (true, t') =>
                  attempt_loop fuel' dir payload t' (tried ++ [p])
              | (false, t') => (t', tried ++ [p], Exhausted e)
              end
          end
      end
  end.

(** Modelled from the spec: steps 3 to 5 of [translate], section 4.5,
    for a resolved direction. *)
Definition dispatch (dir : string * string) (txt : text) (t : Translator)
  : Translator * list Provider * (exn + text) :=
  let payload := substitute dir txt in
  match attempt_loop (List.length (providers t)) dir payload t [] with
  | (t', tried, Succeeded out usage) =>
      (set_last_usage (Some match usage with Some n => n | None => 0 end)
                      t',
       tried, inr out)
  | (t', tried, Exhausted _) => (t', tried, inl "AllProvidersFailed")
  | (t', tried, Stuck) => (t', tried, inl "NoActiveProvider")
  end.

(** Modelled from the spec: [translate(text, direction?)], section 4.5,
    together with the providers it attempted. *)
Definition translate (txt : text) (explicit : option (string * string))
           (t : Translator)
  : Translator * list Provider * (exn + text) :=
  if negb (truthy (strip txt)) then (t, [], inl "EmptyInput")
  else
    let resolved :=
      match explicit with
      | None => detect_and_set_direction detector txt t
      | Some (source, target) =>
          match set_translation_direction source target t with
          | (t', inl e) => (t', inl e)
          | (t', inr _) => (t', inr (source, target))
          end
      end in
    match resolved with
    | (t', inl e) => (t', [], inl e)
    | (t', inr dir) => dispatch dir txt t'
    end.

(** Modelled from the spec: [Translator.translate_text] (absent): a
    [translate] in the direction held as session state, resolved
    automatically when none has been set yet. *)
Definition translate_text (txt : text) : method text :=
  fun t => let '(t', _, r) := translate txt (direction t) t in (t', r).

End Translate.

(** Modelled from the spec: credential validation at load time, section 3:
    a provider with an empty or placeholder credential is left out. *)
Definition usable (p : Config.ProviderEntry) : option Provider :=
  if provider_key_ok p then
    Some {| name := Config.name p; model := Config.model p;
            credential := get_or_empty (Config.api_key p) |}
  else None.

(** Modelled from the spec: the providers that pass credential validation,
    in configuration order, section 3. *)
Fixpoint usable_providers (ps : list Config.ProviderEntry) : list Provider :=
  match ps with
  | [] => []
  | p :: ps' =>
      match usable p with
      | Some q => q :: usable_providers ps'
      | None => usable_providers ps'
      end
  end.

(** Modelled from the spec: pool construction, sections 3 and 7: an empty
    pool is refused ([PoolExhaustedAtConstruction]); the first provider is
    active. The single key of the older format counts as one descriptor. *)
Definition construct (c : Config.Config) : exn + Translator :=
  let a := Config.api_or_empty c in
  let entries :=
    match Config.providers a with
    | Some ps => ps
    | None => [ {| Config.name := "default"; Config.model := "default";
                   Config.api_key := Config.single_api_key a |} ]
    end in
  match usable_providers entries with
  | [] => inl "PoolExhaustedAtConstruction"
  | ps => inr {| providers := ps; current_provider_index := 0;
                 direction := None; last_usage := None; switch_log := [] |}
  end.

End Engine.

(** * Vocabulary of the properties and sample objects *)

(** The source after the coercion of line 418-419. *)
Definition coerced_source (detect_source_language : text -> string)
           (txt : text) : string :=
  if (detect_source_language txt =? "unknown")%string then "en"
  else detect_source_language txt.

(** Sample texts: "안녕하세요", "こんにちは" and "hello there". *)
Definition annyeonghaseyo : text := [0xC548; 0xB155; 0xD558; 0xC138; 0xC694]%N.

Definition konnichiwa : text := [0x3053; 0x3093; 0x306B; 0x3061; 0x306F]%N.

Definition hello_there : text :=
  [104; 101; 108; 108; 111; 32; 116; 104; 101; 114; 101]%N.

(** The detector with a threshold of one half. *)
Definition detect_half : text -> string := Engine.detect 1 2.

Definition provider_a : Provider :=
  {| name := "openai"; model := "gpt-4o-mini"; credential := "sk-a" |}.

Definition provider_b : Provider :=
  {| name := "anthropic"; model := "claude-3-haiku"; credential := "sk-b" |}.

Definition sample_translator : Translator :=
  {| providers := [provider_a; provider_b];
     current_provider_index := 0;
     direction := None; last_usage := None; switch_log := [] |}.

Definition quiet_env : Env :=
  {| selection := None; send_key_error := None; paste_error := None;
     copy_error := false; log_error := false; preference_error := false;
     popup_error := None |}.

Definition sample_globals : Globals :=
  {| translator := Some sample_translator; config := None;
     is_translating := false |}.

Definition sample_shell : Shell :=
  {| globals := sample_globals; clipboard := []; preference := "";
     translations := []; calls := [] |}.

Definition window_with (source result : text) (retranslate : bool) : Window :=
  {| target_lang_var := "ko";
     model_list := map model_label (providers sample_translator);
     model_combo := 0; status_label := StPrompt;
     original_text := source; translated_text := result;
     has_translation := retranslate;
     translate_arrow_btn := if retranslate then "↔" else "→" |}.

(** A dictionary without rules, a provider that always answers with the
    Japanese greeting, and a provider that always fails. *)
Definition no_rules : string * string -> text -> text := fun _ s => s.

Definition answering : Provider -> string * string -> text ->
                       exn + (text * option Z) :=
  fun _ _ _ => inr (konnichiwa, Some 42).

Definition unreachable : Provider -> string * string -> text ->
                         exn + (text * option Z) :=
  fun _ _ _ => inl "timeout".

(** The three places of the window that write the active index. *)
Inductive IndexWriter :=
| ByWindowInit                                   (* [__init__] *)
| ByModelChange (w : Window)                     (* [_on_model_change] *)
| ByModelConfirm (env : Env) (w : Window).       (* [_on_model_confirm] *)

Definition write_index (s : Shell) (op : IndexWriter) : Shell :=
  match op with
  | ByWindowInit => snd (ManualTranslationWindow.__init__ s)
  | ByModelChange w => ManualTranslationWindow._on_model_change w s
  | ByModelConfirm env w =>
      snd (fst (ManualTranslationWindow._on_model_confirm env w s))
  end.

(** A constructed pool: the global holds a translator whose active index
    designates one of its providers. *)
Definition pool_valid (ps : list Provider) (s : Shell) : Prop :=
  exists t, translator (globals s) = Some t /\ providers t = ps
            /\ valid_index t.

Definition window_selecting (i : Z) : Window :=
  {| target_lang_var := "ko";
     model_list := map model_label (providers sample_translator);
     model_combo := i; status_label := StPrompt;
     original_text := []; translated_text := [];
     has_translation := false; translate_arrow_btn := "→" |}.

(** The selection contract read on the confirm handler: an index
    outside the provider list makes the handler fail with [OutOfRange], and
    the active index keeps its value. *)
Definition selection_fails_out_of_range : Prop :=
  forall env w s t,
    translator (globals s) = Some t ->
    ~ (0 <= model_combo w < Z.of_nat (List.length (providers t))) ->
    snd (ManualTranslationWindow._on_model_confirm env w s)
    = Some "OutOfRange"
    /\ translator
         (globals (snd (fst (ManualTranslationWindow._on_model_confirm
                               env w s)))) = Some t.

(** The clipboard as [pyperclip.paste] finds it after Ctrl+C. *)
Definition clipboard_after_copy (env : Env) (s : Shell) : text :=
  match selection env with
  | Some sel => sel
  | None => clipboard s
  end.

Definition no_selection_message : string :=
  "선택된 텍스트가 없습니다." ++ newline
  ++ "텍스트를 선택한 후 다시 시도하세요.".

(** The user has selected two spaces and a line break. *)
Definition blank_selection_env : Env :=
  {| selection := Some [32; 32; 10]%N; send_key_error := None;
     paste_error := None; copy_error := false; log_error := false;
     preference_error := false; popup_error := None |}.








(** The user has selected the Korean greeting. *)
Definition greeting_env : Env :=
  {| selection := Some annyeonghaseyo; send_key_error := None;
     paste_error := None; copy_error := false; log_error := false;
     preference_error := false; popup_error := Some "TclError" |}.

(** A credential that does not count: empty, or one of the sentinels. *)
Definition unconfigured (key : string) : Prop :=
  key = "" \/ In key placeholder_keys.

(** The credentials a configuration declares: one per listed provider, or
    the single key of the older format. *)
Definition credentials (a : Config.ApiConfig) : list string :=
  match Config.providers a with
  | Some ps => map (fun p => get_or_empty (Config.api_key p)) ps
  | None => [get_or_empty (Config.single_api_key a)]
  end.

(** Initialization fails: whatever loading the prompts would do, a
    start-up that loads [cfg] returns failure, and the translator global is
    as before (no engine has been installed). *)
Definition initialization_fails
           (ctor : Config.Config -> exn + Translator) (cfg : Config.Config)
  : Prop :=
  forall load_prompts d g,
    config_exists d = true ->
    load_config d = inr cfg ->
    exists message,
      init_translator ctor load_prompts d g
      = (set_config (Some cfg) g, InitReturned false message).

(** Construction proceeds: the constructor returns a translator, and a
    start-up that loads [cfg] installs it after loading the prompts. *)
Definition construction_proceeds
           (ctor : Config.Config -> exn + Translator) (cfg : Config.Config)
  : Prop :=
  exists t,
    ctor cfg = inr t
    /\ forall load_prompts d g,
        config_exists d = true ->
        load_config d = inr cfg ->
        init_translator ctor load_prompts d g
        = match load_prompts d cfg t with
          | (t', Some e) =>
              (set_translator (Some t') (set_config (Some cfg) g),
               InitRaised e)
          | (t', None) =>
              (set_translator (Some t') (set_config (Some cfg) g),
               InitReturned true MsgOK)
          end.

(** An older-format configuration whose single key is the OpenAI
    sentinel. *)
Definition single_key_config : Config.Config :=
  {| Config.api :=
       Some {| Config.providers := None;
               Config.single_api_key := Some "YOUR_OPENAI_API_KEY" |} |}.

Definition sentinel_config : Config.Config :=
  {| Config.api :=
       Some {| Config.providers :=
                 Some [ {| Config.name := "openai"; Config.model := "gpt-4o-mini";
                           Config.api_key := Some "YOUR_OPENAI_API_KEY" |};
                        {| Config.name := "anthropic";
                           Config.model := "claude-3-haiku";
                           Config.api_key := Some "YOUR_ANTHROPIC_API_KEY" |};
                        {| Config.name := "local"; Config.model := "llama";
                           Config.api_key := None |} ];
               Config.single_api_key := None |} |}.

Definition working_config : Config.Config :=
  {| Config.api :=
       Some {| Config.providers :=
                 Some [ {| Config.name := "openai"; Config.model := "gpt-4o-mini";
                           Config.api_key := Some "YOUR_OPENAI_API_KEY" |};
                        {| Config.name := "anthropic";
                           Config.model := "claude-3-haiku";
                           Config.api_key := Some "sk-live-1" |} ];
               Config.single_api_key := None |} |}.




(** Stand-ins for the built-ins [str(n)], [int(s)] and [str.lower] in
    sample runs: decimal digits of a small non-negative number, and ASCII
    letters. *)
Fixpoint decimal_digits (fuel : nat) (n : N) (acc : text) : text :=
  match fuel with
  | O => acc
  | S fuel' =>
      let acc' := (48 + n mod 10)%N :: acc in
      if (n / 10 =? 0)%N then acc' else decimal_digits fuel' (n / 10)%N acc'
  end.

Definition sample_str (n : Z) : text := decimal_digits 20 (Z.to_N n) [].

Fixpoint decimal_value (acc : Z) (s : text) : option Z :=
  match s with
  | [] => Some acc
  | c :: s' =>
      if ((48 <=? c) && (c <=? 57))%N
      then decimal_value (10 * acc + Z.of_N (c - 48)) s'
      else None
  end.

Definition sample_int (s : text) : option Z :=
  match s with
  | [] => None
  | _ :: _ => decimal_value 0 s
  end.

Definition sample_lower (s : text) : text :=
  map (fun c => if ((65 <=? c) && (c <=? 90))%N then (c + 32)%N else c) s.

(** A clock in milliseconds whose stamp is the number of whole seconds. *)
Definition sample_strftime (ms : N) (fmt : string) : text :=
  decimal_digits 20 (ms / 1000)%N [].

(** A host on which process 4321 runs as "Pythonw.exe" and no lock file
    exists. *)
Definition sample_host : Host :=
  {| lock := LockAbsent;
     processes := fun pid =>
                    if pid =? 4321
                    then ProcessNamed [80; 121; 116; 104; 111; 110; 119; 46;
                                       101; 120; 101]%N
                    else NoProcess;
     getpid := 4321;
     lock_writable := true;
     lock_removable := true |}.

(** A later host: the lock of process 4321 was left behind, process 4321
    is gone, and another process, 77, runs as "python.exe". *)
Definition later_host : Host :=
  {| lock := LockContent [52; 51; 50; 49]%N;
     processes := fun pid =>
                    if pid =? 77
                    then ProcessNamed [112; 121; 116; 104; 111; 110; 46;
                                       101; 120; 101]%N
                    else NoProcess;
     getpid := 77;
     lock_writable := true;
     lock_removable := true |}.

Definition sample_disk (c : Config.Config) : Disk :=
  {| config_exists := true; load_config := inr c |}.

Definition no_prompts : Disk -> Config.Config -> Translator ->
                        Translator * option exn :=
  fun _ _ t => (t, None).

Definition fresh_globals : Globals :=
  {| translator := None; config := None; is_translating := false |}.

Definition fresh_shell : Shell :=
  {| globals := fresh_globals; clipboard := []; preference := "";
     translations := []; calls := [] |}.

Definition empty_log_dir : LogDir :=
  {| dir_exists := false; mkdir_ok := true; open_ok := true; files := [] |}.

(** A text that is one unpaired surrogate. *)
Definition lone_surrogate : text := [0xD83D]%N.

Definition sample_popup : TranslationPopup.Popup :=
  TranslationPopup.__init__ annyeonghaseyo konnichiwa "완료"
                            "openai:gpt-4o-mini" 42.

(** * Properties *)

(** ** Facts about the Python idioms *)

Lemma lstrip_blank s : blank s -> lstrip s = [].
Proof.
  induction 1 as [|c s Hc _ IH]; simpl; [reflexivity|].
  now rewrite Hc.
Qed.

Lemma lstrip_nil_blank s : lstrip s = [] -> blank s.
Proof.
  induction s as [|c s IH]; simpl; intros H; [constructor|].
  destruct (isspace c) eqn:Hc; [|discriminate].
  apply Forall_cons; [exact Hc | exact (IH H)].
Qed.

Lemma blank_rev s : blank s -> blank (rev s).
Proof. unfold blank. intros H. apply Forall_rev, H. Qed.

Lemma lstrip_suffix s : exists p, blank p /\ s = p ++ lstrip s.
Proof.
  induction s as [|c s [p [Hp Hs]]]; simpl.
  - exists []. split; [constructor | reflexivity].
  - destruct (isspace c) eqn:Hc.
    + exists (c :: p). split; [constructor; assumption|].
      simpl. now f_equal.
    + exists []. split; [constructor | reflexivity].
Qed.

Lemma lstrip_head s c r : lstrip s = c :: r -> isspace c = false.
Proof.
  induction s as [|d s IH]; simpl; [discriminate|].
  destruct (isspace d) eqn:Hd; [exact IH|].
  intros H. injection H as -> _. exact Hd.
Qed.

Lemma strip_blank s : blank s -> strip s = [].
Proof.
  intros H. unfold strip, rstrip.
  rewrite (lstrip_blank (rev s)) by now apply blank_rev.
  reflexivity.
Qed.

Lemma blank_app p q : blank p -> blank q -> blank (p ++ q).
Proof. unfold blank. intros. apply Forall_app. now split. Qed.

Lemma strip_nil_blank s : strip s = [] -> blank s.
Proof.
  unfold strip, rstrip. intros H.
  apply lstrip_nil_blank in H.
  destruct (lstrip_suffix (rev s)) as [p [Hp Hs]].
  apply (f_equal (@rev _)) in Hs. rewrite rev_involutive, rev_app_distr in Hs.
  rewrite Hs. apply blank_app; [assumption | now apply blank_rev].
Qed.

(** The emptiness test [if not text] after [strip] is exactly blankness. *)
Lemma strip_empty_iff s : truthy (strip s) = false <-> blank s.
Proof.
  split.
  - intros H. apply strip_nil_blank. now destruct (strip s).
  - intros H. now rewrite strip_blank.
Qed.

Lemma str_truthy_false s : str_truthy s = false <-> s = "".
Proof.
  unfold str_truthy. rewrite negb_false_iff. apply String.eqb_eq.
Qed.

Lemma str_in_In s l : str_in s l = true <-> In s l.
Proof.
  unfold str_in. rewrite existsb_exists. split.
  - intros [x [Hx He]]. apply String.eqb_eq in He. now subst.
  - intros H. exists s. split; [assumption | apply String.eqb_refl].
Qed.

Lemma index_of_range x l i :
  index_of x l = Some i -> 0 <= i < Z.of_nat (List.length l).
Proof.
  revert i. induction l as [|y l IH]; simpl; intros i H; [discriminate|].
  destruct (y =? x)%string.
  - injection H as <-. lia.
  - destruct (index_of x l) as [j|]; [|discriminate].
    injection H as <-. specialize (IH j eq_refl). lia.
Qed.

Lemma py_getitem_in_range {A} (l : list A) i :
  0 <= i < Z.of_nat (List.length l) -> exists a, py_getitem l i = Some a.
Proof.
  intros H. unfold py_getitem.
  destruct (i <? 0) eqn:E; [apply Z.ltb_lt in E; lia|].
  destruct (nth_error l (Z.to_nat i)) as [a|] eqn:N; [now exists a|].
  apply nth_error_None in N. lia.
Qed.

Lemma valid_index_nonempty t : valid_index t -> providers t <> [].
Proof.
  unfold valid_index. destruct (providers t); simpl; [lia | discriminate].
Qed.

Lemma current_model_valid t :
  valid_index t -> exists l, current_model t = Some l.
Proof.
  intros H. unfold current_model.
  destruct (py_getitem_in_range (providers t) _ H) as [p ->].
  now exists (model_label p).
Qed.

Lemma assign_providers i t :
  providers (assign_current_provider_index i t) = providers t.
Proof.
  unfold assign_current_provider_index. now destruct (i =? _).
Qed.

Lemma assign_index i t :
  current_provider_index (assign_current_provider_index i t) = i.
Proof.
  unfold assign_current_provider_index. now destruct (i =? _).
Qed.

Lemma assign_current_model i t :
  current_model (assign_current_provider_index i t)
  = current_model (set_current_provider_index i t).
Proof.
  unfold assign_current_provider_index. now destruct (i =? _).
Qed.

Lemma assign_valid i t :
  0 <= i < Z.of_nat (List.length (providers t)) ->
  valid_index (assign_current_provider_index i t).
Proof.
  intros H. unfold valid_index. now rewrite assign_providers, assign_index.
Qed.

Lemma assign_same_log i t :
  i = current_provider_index t ->
  switch_log (assign_current_provider_index i t) = switch_log t.
Proof.
  intros ->. unfold assign_current_provider_index.
  now rewrite Z.eqb_refl.
Qed.

Lemma assign_new_log i t :
  i <> current_provider_index t ->
  switch_log (assign_current_provider_index i t)
  = {| old_model := get_or_empty (current_model t);
       new_model := get_or_empty (current_model
                                    (assign_current_provider_index i t));
       reason := user_selected |} :: switch_log t.
Proof.
  intros H. rewrite assign_current_model.
  unfold assign_current_provider_index.
  apply Z.eqb_neq in H. now rewrite H.
Qed.

(** ** Direction resolution in the manual window *)

Section Direction.

Import ManualTranslationWindow.

Variable detect_source_language : text -> string.
Variable set_translation_direction : string -> string -> method unit.
Variable translate_text : text -> method text.

Let resolve := resolve_direction detect_source_language.
Let run := do_translate detect_source_language set_translation_direction
                        translate_text.

Lemma resolve_source txt tv :
  fst (fst (resolve txt tv)) = coerced_source detect_source_language txt.
Proof.
  unfold resolve, resolve_direction, coerced_source.
  destruct (detect_source_language txt =? "unknown")%string; cbv zeta.
  - reflexivity.
  - destruct (detect_source_language txt =? "ko")%string; [reflexivity|].
    destruct (str_in (detect_source_language txt) ["ja"; "en"]); reflexivity.
Qed.

Lemma resolve_ko txt tv :
  coerced_source detect_source_language txt = "ko" ->
  resolve txt tv = ("ko", "ja", "ja").
Proof.
  unfold resolve, resolve_direction, coerced_source. intros ->. reflexivity.
Qed.

Lemma resolve_foreign txt tv :
  coerced_source detect_source_language txt = "ja"
  \/ coerced_source detect_source_language txt = "en" ->
  resolve txt tv = (coerced_source detect_source_language txt, "ko", "ko").
Proof.
  unfold resolve, resolve_direction, coerced_source.
  intros [H|H]; rewrite H; reflexivity.
Qed.

Lemma move_back_target_var w :
  target_lang_var (move_translation_back w) = target_lang_var w.
Proof.
  unfold move_translation_back.
  destruct (has_translation w); [|reflexivity].
  destruct (truthy _); reflexivity.
Qed.

(** Whatever happens afterwards, a run on a non-blank text with a
    translator present first detects the language of the text and then
    hands the resolved pair to the translator. *)
Lemma do_translate_direction_call env w s t :
  truthy (input_text w) = true ->
  translator (globals s) = Some t ->
  exists later,
    calls (snd (fst (run env w s)))
    = later ++ CallSetDirection
                 (fst (fst (resolve (input_text w) (target_lang_var w))))
                 (snd (fst (resolve (input_text w) (target_lang_var w))))
            :: CallDetect (input_text w) :: calls s.
Proof.
  intros Htxt Ht. unfold run, do_translate.
  fold (input_text w). rewrite Htxt, Ht. simpl negb. cbv iota.
  rewrite move_back_target_var.
  fold resolve.
  destruct (resolve (input_text w) (target_lang_var w)) as [[src tgt] tv].
  simpl fst; simpl snd.
  destruct (set_translation_direction src tgt t) as [t1 [e|[]]].
  - exists []. reflexivity.
  - destruct (translate_text (input_text w) t1) as [t2 [e|out]].
    + exists [CallTranslate (input_text w)]. reflexivity.
    + unfold show_result.
      destruct (current_model t2).
      * exists [CallSaveLog (input_text w) out; CallCopy out;
                CallTranslate (input_text w)].
        simpl. destruct (copy_error env), (log_error env); reflexivity.
      * exists [CallTranslate (input_text w)]. reflexivity.
Qed.

End Direction.

Example detect_korean : detect_half annyeonghaseyo = "ko".
Proof. reflexivity. Qed.

Example detect_japanese : detect_half konnichiwa = "ja".
Proof. reflexivity. Qed.

Example detect_english : detect_half hello_there = "en".
Proof. reflexivity. Qed.

Example detect_empty : detect_half [] = "unknown".
Proof. reflexivity. Qed.

Lemma detect_meets_contract num den :
  Engine.detector_contract (Engine.detect num den).
Proof.
  intros s. unfold Engine.detect. cbv zeta.
  repeat match goal with
         | |- In (if ?b then _ else _) _ => destruct b
         end; simpl; tauto.
Qed.

Lemma strip_head_not_space s c r : strip s = c :: r -> isspace c = false.
Proof. unfold strip. apply lstrip_head. Qed.

(** Re-reading a stripped, non-empty text from a widget keeps it
    non-empty. *)
Lemma strip_widget_get_truthy s :
  truthy (strip s) = true -> truthy (strip (widget_get (strip s))) = true.
Proof.
  intros H. destruct (strip s) as [|c r] eqn:E; [discriminate|].
  destruct (strip (widget_get (c :: r))) eqn:E2; [|reflexivity].
  apply strip_nil_blank in E2. unfold widget_get in E2. simpl in E2.
  inversion E2 as [|? ? Hc _]; subst.
  rewrite (strip_head_not_space _ _ _ E) in Hc. discriminate.
Qed.

(** C1. Automatic direction resolution in the manual window: the detector
    is run on the text; an [unknown] result is coerced to [en]; a Korean
    source gets the target [ja], a Japanese or English source gets the
    target [ko]; and this pair is what the handler passes to the translator
    right after detection. *)
Theorem auto_direction_routing :
  forall (detect : text -> string) (txt : text) (target_var : string),
    let source := coerced_source detect txt in
    let r := ManualTranslationWindow.resolve_direction detect txt target_var in
    (detect txt = "unknown" -> source = "en") /\
    (detect txt <> "unknown" -> source = detect txt) /\
    fst (fst r) = source /\
    (source = "ko" -> snd (fst r) = "ja") /\
    (source = "ja" \/ source = "en" -> snd (fst r) = "ko") /\
    (forall set_direction translate env w s t,
        ManualTranslationWindow.input_text w = txt ->
        target_lang_var w = target_var ->
        truthy txt = true ->
        translator (globals s) = Some t ->
        exists later,
          calls (snd (fst (ManualTranslationWindow.do_translate
                             detect set_direction translate env w s)))
          = later ++ CallSetDirection (fst (fst r)) (snd (fst r))
                  :: CallDetect txt :: calls s).
Proof.
  intros detect txt tv source r.
  split; [|split; [|split; [|split; [|split]]]].
  - intros H. unfold source, coerced_source. now rewrite H.
  - intros H. unfold source, coerced_source.
    destruct (detect txt =? "unknown")%string eqn:E; [|reflexivity].
    apply String.eqb_eq in E. contradiction.
  - apply resolve_source.
  - intros H. unfold r. now rewrite (resolve_ko detect txt tv H).
  - intros H. unfold r. now rewrite (resolve_foreign detect txt tv H).
  - intros sd tr env w s t Hin Hv Htxt Ht. subst txt tv.
    exact (do_translate_direction_call detect sd tr env w s t Htxt Ht).
Qed.

(** C10. Under the detector's contract the manual window never reads the
    target radio selection: two runs of the resolution on the same text
    that differ only in the selection give the same source, the same target
    and leave the same value in the radio variable. *)
Theorem direction_ignores_target_selection :
  forall (detect : text -> string),
    Engine.detector_contract detect ->
    forall (txt : text) (selection1 selection2 : string),
      ManualTranslationWindow.resolve_direction detect txt selection1
      = ManualTranslationWindow.resolve_direction detect txt selection2.
Proof.
  intros detect Hc txt v1 v2.
  unfold ManualTranslationWindow.resolve_direction.
  destruct (Hc txt) as [H|[H|[H|[H|[]]]]]; rewrite <- H; reflexivity.
Qed.

(** C8. Round trip of the direction policy. A Korean text resolves to
    ko -> ja; a Japanese text (the result) resolves to ja -> ko, the
    reverse pair; and pressing the button again on a window holding a
    result feeds that result back: when it is detected as Japanese the
    translator is given the direction ja -> ko. *)
Theorem round_trip_direction :
  forall (detect : text -> string) (a b : text) (target_var : string),
    detect a = "ko" ->
    detect b = "ja" ->
    let first := ManualTranslationWindow.resolve_direction detect a target_var in
    let second :=
      ManualTranslationWindow.resolve_direction detect b (snd first) in
    fst first = ("ko", "ja") /\
    fst second = ("ja", "ko") /\
    (forall set_direction translate env w s t,
        has_translation w = true ->
        strip (widget_get (translated_text w)) = b ->
        truthy b = true ->
        translator (globals s) = Some t ->
        detect (ManualTranslationWindow.input_text w) = "ja" ->
        ManualTranslationWindow.input_text w = strip (widget_get b) /\
        exists later,
          calls (snd (fst (ManualTranslationWindow.do_translate
                             detect set_direction translate env w s)))
          = later ++ CallSetDirection "ja" "ko"
                  :: CallDetect (strip (widget_get b)) :: calls s).
Proof.
  intros detect a b tv Ha Hb first second.
  assert (Hfirst : first = ("ko", "ja", "ja")).
  { unfold first. apply resolve_ko. unfold coerced_source. now rewrite Ha. }
  split; [now rewrite Hfirst|]. split.
  - unfold second. rewrite (resolve_foreign detect b).
    + unfold coerced_source. now rewrite Hb.
    + left. unfold coerced_source. now rewrite Hb.
  - intros sd tr env w s t Hhas Hres Hne Ht Hja.
    assert (Hin : ManualTranslationWindow.input_text w = strip (widget_get b)).
    { unfold ManualTranslationWindow.input_text,
        ManualTranslationWindow.move_translation_back.
      rewrite Hhas, Hres, Hne. reflexivity. }
    split; [exact Hin|].
    assert (Hne' : truthy (ManualTranslationWindow.input_text w) = true).
    { rewrite Hin, <- Hres. apply strip_widget_get_truthy. now rewrite Hres. }
    destruct (do_translate_direction_call detect sd tr env w s t Hne' Ht)
      as [later Hl].
    exists later. rewrite Hl.
    rewrite (resolve_foreign detect _ (target_lang_var w)).
    + unfold coerced_source. rewrite Hja. simpl. now rewrite Hin.
    + left. unfold coerced_source. now rewrite Hja.
Qed.

Lemma auto_direction_routing_witness :
  coerced_source detect_half [] = "en" /\
  coerced_source detect_half hello_there = "en" /\
  snd (fst (ManualTranslationWindow.resolve_direction
              detect_half annyeonghaseyo "ko")) = "ja" /\
  snd (fst (ManualTranslationWindow.resolve_direction
              detect_half konnichiwa "en")) = "ko" /\
  exists later,
    calls (snd (fst (ManualTranslationWindow.do_translate
                       detect_half Engine.set_translation_direction
                       (Engine.translate_text detect_half no_rules answering) quiet_env
                       (window_with annyeonghaseyo [] false) sample_shell)))
    = later ++ [CallSetDirection "ko" "ja"; CallDetect annyeonghaseyo].
Proof.
  destruct (auto_direction_routing detect_half [] "en")
    as (Hunknown & _).
  destruct (auto_direction_routing detect_half hello_there "en")
    as (_ & Hknown & _).
  destruct (auto_direction_routing detect_half annyeonghaseyo "ko")
    as (_ & _ & _ & Hko & _ & Hrun).
  destruct (auto_direction_routing detect_half konnichiwa "en")
    as (_ & _ & _ & _ & Hja & _).
  split; [apply Hunknown; reflexivity|].
  split; [rewrite Hknown; [reflexivity | discriminate]|].
  split; [apply Hko; reflexivity|].
  split; [apply Hja; left; reflexivity|].
  exact (Hrun Engine.set_translation_direction
              (Engine.translate_text detect_half no_rules answering) quiet_env
              (window_with annyeonghaseyo [] false) sample_shell
              sample_translator eq_refl eq_refl eq_refl eq_refl).
Defined.

Lemma direction_ignores_target_selection_witness :
  ManualTranslationWindow.resolve_direction detect_half hello_there "ja"
  = ManualTranslationWindow.resolve_direction detect_half hello_there "en".
Proof.
  apply (direction_ignores_target_selection detect_half).
  exact (detect_meets_contract 1 2).
Defined.

Lemma round_trip_direction_witness :
  fst (ManualTranslationWindow.resolve_direction
         detect_half annyeonghaseyo "ko") = ("ko", "ja") /\
  fst (ManualTranslationWindow.resolve_direction
         detect_half konnichiwa
         (snd (ManualTranslationWindow.resolve_direction
                 detect_half annyeonghaseyo "ko"))) = ("ja", "ko") /\
  exists later,
    calls (snd (fst (ManualTranslationWindow.do_translate
                       detect_half Engine.set_translation_direction
                       (Engine.translate_text detect_half no_rules answering) quiet_env
                       (window_with annyeonghaseyo konnichiwa true)
                       sample_shell)))
    = later ++ [CallSetDirection "ja" "ko";
                CallDetect (strip (widget_get konnichiwa))].
Proof.
  destruct (round_trip_direction detect_half annyeonghaseyo konnichiwa "ko"
                                 eq_refl eq_refl) as (H1 & H2 & H3).
  split; [exact H1|]. split; [exact H2|].
  exact (proj2 (H3 Engine.set_translation_direction
                   (Engine.translate_text detect_half no_rules answering) quiet_env
                   (window_with annyeonghaseyo konnichiwa true) sample_shell
                   sample_translator eq_refl eq_refl eq_refl eq_refl eq_refl)).
Defined.

(** ** The active index under the window's handlers *)

Section ActiveIndex.

Import ManualTranslationWindow.

Lemma default_idx_nonneg preferred models : 0 <= default_idx preferred models.
Proof.
  unfold default_idx.
  destruct (str_truthy preferred && str_in preferred models); [|lia].
  destruct (index_of preferred models) as [i|] eqn:E; [|lia].
  apply index_of_range in E. lia.
Qed.

Lemma apply_preference_providers preferred t :
  providers (apply_preference preferred t) = providers t.
Proof.
  unfold apply_preference.
  destruct (map model_label (providers t)); [reflexivity|].
  destruct (_ <? _); [apply assign_providers | reflexivity].
Qed.

Lemma apply_preference_valid preferred t :
  valid_index t -> valid_index (apply_preference preferred t).
Proof.
  intros H. unfold apply_preference.
  destruct (map model_label (providers t)) as [|m ms] eqn:E; [exact H|].
  rewrite <- E.
  destruct (_ <? _) eqn:L; [|exact H].
  apply Z.ltb_lt in L. apply assign_valid.
  split; [apply default_idx_nonneg | exact L].
Qed.

Lemma save_model_preference_globals env m s :
  globals (save_model_preference env m s) = globals s.
Proof.
  unfold save_model_preference. destruct (preference_error env); reflexivity.
Qed.

Lemma in_range_guard i (ps : list Provider) :
  (0 <=? i) && (i <? Z.of_nat (List.length ps)) = true
  <-> 0 <= i < Z.of_nat (List.length ps).
Proof. rewrite andb_true_iff, Z.leb_le, Z.ltb_lt. tauto. Qed.

Lemma write_index_valid ps s op :
  pool_valid ps s -> pool_valid ps (write_index s op).
Proof.
  intros (t & Ht & Hps & Hv). destruct op as [|w|env w]; simpl.
  - unfold __init__. rewrite Ht. simpl.
    exists (apply_preference (load_model_preference s) t).
    split; [reflexivity|]. split.
    + now rewrite apply_preference_providers.
    + now apply apply_preference_valid.
  - unfold _on_model_change. rewrite Ht.
    destruct (_ && _) eqn:G.
    + apply in_range_guard in G.
      exists (assign_current_provider_index (model_combo w) t).
      split; [reflexivity|].
      split; [now rewrite assign_providers | now apply assign_valid].
    + exists t. auto.
  - unfold _on_model_confirm. rewrite Ht.
    destruct (_ && _) eqn:G.
    + apply in_range_guard in G.
      cbv zeta. destruct (current_model _); cbn [fst snd]; unfold pool_valid;
        [rewrite save_model_preference_globals|];
        exists (assign_current_provider_index (model_combo w) t);
        (split; [reflexivity|]);
        (split; [now rewrite assign_providers | now apply assign_valid]).
    + exists t. auto.
Qed.

End ActiveIndex.

(** C5. Once a translator with a valid active index is in place, every
    sequence of the window operations that write the index (applying the
    saved preference when a window is built, a combobox change, a model
    confirmation) leaves the same provider sequence and an index [i] with
    [0 <= i < number of providers]; the sequence is therefore not empty. *)
Theorem active_index_stays_valid :
  forall (ps : list Provider) (s : Shell) (ops : list IndexWriter),
    pool_valid ps s ->
    pool_valid ps (fold_left write_index ops s) /\ ps <> [].
Proof.
  intros ps s ops H. split.
  - revert s H. induction ops as [|op ops IH]; intros s H; simpl.
    + exact H.
    + apply IH. now apply write_index_valid.
  - destruct H as (t & _ & <- & Hv). now apply valid_index_nonempty.
Qed.

Lemma sample_pool_valid : pool_valid [provider_a; provider_b] sample_shell.
Proof.
  exists sample_translator. split; [reflexivity|]. split; [reflexivity|].
  unfold valid_index. simpl. lia.
Defined.

Lemma active_index_stays_valid_witness :
  pool_valid [provider_a; provider_b]
             (fold_left write_index
                        [ByModelChange (window_selecting 1);
                         ByModelConfirm quiet_env (window_selecting 7);
                         ByWindowInit;
                         ByModelConfirm quiet_env (window_selecting (-1))]
                        sample_shell)
  /\ [provider_a; provider_b] <> [].
Proof.
  apply active_index_stays_valid. exact sample_pool_valid.
Defined.

(** ** Explicit selection of a model *)

Lemma guard_false i (ps : list Provider) :
  ~ (0 <= i < Z.of_nat (List.length ps)) ->
  (0 <=? i) && (i <? Z.of_nat (List.length ps)) = false.
Proof.
  intros H. destruct (_ && _) eqn:G; [|reflexivity].
  apply in_range_guard in G. contradiction.
Qed.

(** C6, as stated, fails: with two providers and the combobox reporting
    index 7 the confirm handler returns normally; no [OutOfRange] is
    raised. *)
Lemma out_of_range_selection_is_silent :
  ManualTranslationWindow._on_model_confirm
    quiet_env (window_selecting 7) sample_shell
  = (window_selecting 7, sample_shell, None)
  /\ ~ selection_fails_out_of_range.
Proof.
  split; [reflexivity|]. intros H.
  destruct (H quiet_env (window_selecting 7) sample_shell sample_translator
              eq_refl) as [Hraise _].
  - simpl. lia.
  - discriminate Hraise.
Qed.

(** C6, amended. For every index outside the provider list the selection
    handlers do nothing at all: the confirm handler returns normally with
    the window (status label included) and the shell (active index and
    saved preference included) as they were, and so does the change
    handler. *)
Theorem out_of_range_selection_ignored :
  forall env w s t,
    translator (globals s) = Some t ->
    ~ (0 <= model_combo w < Z.of_nat (List.length (providers t))) ->
    ManualTranslationWindow._on_model_confirm env w s = (w, s, None)
    /\ ManualTranslationWindow._on_model_change w s = s.
Proof.
  intros env w s t Ht Hout.
  unfold ManualTranslationWindow._on_model_confirm,
    ManualTranslationWindow._on_model_change.
  rewrite Ht, (guard_false _ _ Hout). split; reflexivity.
Qed.

Lemma out_of_range_selection_ignored_witness :
  ManualTranslationWindow._on_model_confirm
    quiet_env (window_selecting (-1)) sample_shell
  = (window_selecting (-1), sample_shell, None)
  /\ ManualTranslationWindow._on_model_change (window_selecting (-1))
                                              sample_shell
     = sample_shell.
Proof.
  apply (out_of_range_selection_ignored quiet_env (window_selecting (-1))
                                        sample_shell sample_translator).
  - reflexivity.
  - simpl. lia.
Defined.

(** ** Switch events of manual selections *)

(** What a write of the active index must have emitted: nothing when the
    index is the one before, and otherwise exactly one event, with the old
    label, the new label and the reason [user_selected]. *)
Lemma assign_event i t :
  valid_index t ->
  0 <= i < Z.of_nat (List.length (providers t)) ->
  let t' := assign_current_provider_index i t in
  (current_provider_index t' = current_provider_index t ->
   switch_log t' = switch_log t)
  /\ (current_provider_index t' <> current_provider_index t ->
      exists old_label new_label,
        current_model t = Some old_label
        /\ current_model t' = Some new_label
        /\ switch_log t'
           = {| old_model := old_label; new_model := new_label;
                reason := user_selected |} :: switch_log t).
Proof.
  intros Hv Hi t'. subst t'. rewrite assign_index. split.
  - apply assign_same_log.
  - intros Hne.
    destruct (current_model_valid t Hv) as [old Hold].
    destruct (current_model_valid _ (assign_valid i t Hi)) as [new Hnew].
    exists old, new. split; [exact Hold|]. split; [exact Hnew|].
    rewrite (assign_new_log i t Hne), Hold, Hnew. reflexivity.
Qed.

Lemma unchanged_event (t : Translator) :
  (current_provider_index t = current_provider_index t ->
   switch_log t = switch_log t)
  /\ (current_provider_index t <> current_provider_index t ->
      exists old_label new_label,
        current_model t = Some old_label
        /\ current_model t = Some new_label
        /\ switch_log t
           = {| old_model := old_label; new_model := new_label;
                reason := user_selected |} :: switch_log t).
Proof. split; [reflexivity | intros H; now contradiction H]. Qed.

(** C7. With the assignment of the active index understood as the
    specification describes it, every write of the index by the manual
    window (building a window, a combobox change, a model confirmation)
    that changes the index has emitted exactly one switch event, carrying
    the label of the model that was current, the label of the model that
    is current now and the reason [user_selected]; a write that leaves the
    index as it was, and a selection that is ignored, emit nothing. *)
Theorem manual_selection_emits_once :
  forall (s : Shell) (op : IndexWriter) (t : Translator),
    translator (globals s) = Some t ->
    valid_index t ->
    exists t',
      translator (globals (write_index s op)) = Some t'
      /\ (current_provider_index t' = current_provider_index t ->
          switch_log t' = switch_log t)
      /\ (current_provider_index t' <> current_provider_index t ->
          exists old_label new_label,
            current_model t = Some old_label
            /\ current_model t' = Some new_label
            /\ switch_log t'
               = {| old_model := old_label; new_model := new_label;
                    reason := user_selected |} :: switch_log t).
Proof.
  intros s op t Ht Hv. destruct op as [|w|env w]; simpl.
  - unfold ManualTranslationWindow.__init__. rewrite Ht. simpl.
    eexists. split; [reflexivity|].
    unfold ManualTranslationWindow.apply_preference. cbv zeta.
    destruct (map model_label (providers t)); [apply unchanged_event|].
    destruct (_ <? _) eqn:L; [|apply unchanged_event].
    apply Z.ltb_lt in L. apply (assign_event _ t Hv).
    split; [apply default_idx_nonneg | exact L].
  - unfold ManualTranslationWindow._on_model_change. rewrite Ht.
    destruct (_ && _) eqn:G.
    + apply in_range_guard in G. eexists. split; [reflexivity|].
      now apply assign_event.
    + exists t. split; [exact Ht | apply unchanged_event].
  - unfold ManualTranslationWindow._on_model_confirm. rewrite Ht.
    destruct (_ && _) eqn:G.
    + apply in_range_guard in G. cbv zeta.
      exists (assign_current_provider_index (model_combo w) t). split.
      * destruct (current_model _); cbn [fst snd];
          [rewrite save_model_preference_globals|]; reflexivity.
      * now apply assign_event.
    + exists t. split; [exact Ht | apply unchanged_event].
Qed.

Lemma manual_selection_emits_once_witness :
  exists t',
    translator
      (globals (write_index sample_shell
                            (ByModelConfirm quiet_env (window_selecting 1))))
    = Some t'
    /\ switch_log t'
       = [ {| old_model := "openai:gpt-4o-mini";
              new_model := "anthropic:claude-3-haiku";
              reason := user_selected |} ].
Proof.
  destruct (manual_selection_emits_once
              sample_shell (ByModelConfirm quiet_env (window_selecting 1))
              sample_translator eq_refl) as (t' & Ht' & _ & Hnew).
  - unfold valid_index. simpl. lia.
  - exists t'. split; [exact Ht'|].
    injection Ht' as <-.
    destruct Hnew as (old & new & Ho & Hn & Hl); [simpl; lia|].
    rewrite Hl. injection Ho as <-. injection Hn as <-. reflexivity.
Defined.

(** ** Blank input *)

Section BlankInput.

Import ManualTranslationWindow.

Lemma blank_widget_get s : blank (widget_get s) <-> blank s.
Proof.
  unfold widget_get, blank. rewrite Forall_app. split.
  - tauto.
  - intros H. split; [exact H|]. repeat constructor.
Qed.

Lemma strip_widget_get_empty s :
  truthy (strip (widget_get s)) = false <-> blank s.
Proof. rewrite strip_empty_iff. apply blank_widget_get. Qed.

(** The text read at line 406 is empty exactly when the source pane is
    blank and, in re-translation mode, the result pane is blank too. *)
Lemma input_text_empty w :
  truthy (input_text w) = false
  <-> blank (original_text w)
      /\ (has_translation w = true -> blank (translated_text w)).
Proof.
  unfold input_text, move_translation_back.
  destruct (has_translation w).
  - destruct (truthy (strip (widget_get (translated_text w)))) eqn:E.
    + cbn [original_text]. rewrite (strip_widget_get_truthy _ E).
      split; [discriminate|]. intros [_ H].
      apply strip_widget_get_empty in H; [congruence | reflexivity].
    + rewrite strip_widget_get_empty. apply strip_widget_get_empty in E.
      tauto.
  - rewrite strip_widget_get_empty. split; [|tauto].
    intros H. split; [exact H | discriminate].
Qed.

Lemma move_back_blank w :
  truthy (input_text w) = false -> move_translation_back w = w.
Proof.
  intros H. apply input_text_empty in H. destruct H as [_ H].
  unfold move_translation_back.
  destruct (has_translation w); [|reflexivity].
  apply strip_widget_get_empty in H; [|reflexivity]. now rewrite H.
Qed.

Lemma hotkey_blank_test txt :
  blank txt -> negb (truthy txt) || negb (truthy (strip txt)) = true.
Proof.
  intros H. apply strip_empty_iff in H. rewrite H. apply orb_true_r.
Qed.

Lemma globals_guard_roundtrip g :
  is_translating g = false ->
  set_is_translating false (set_is_translating true g) = g.
Proof. destruct g; simpl. now intros ->. Qed.

End BlankInput.

(** C3. A blank text (empty or white space only) is rejected before the
    translator is touched. In the manual window the only effect is the
    status label "enter the source text": the shell, hence the translator
    with its direction and active index, and the list of outgoing calls
    are unchanged. On the hot-key path the outgoing calls are the copy
    key, the clipboard read and the error popup, none of them a translator
    call, and the globals (translator and guard) are as before. *)
Theorem blank_input_rejected :
  forall detect set_direction translate detect_and_set translate'
         (env : Env),
    (forall w s,
        blank (original_text w) ->
        (has_translation w = true -> blank (translated_text w)) ->
        ManualTranslationWindow.do_translate
          detect set_direction translate env w s
        = (set_status StEnterSource w, s, None))
    /\ (forall s t,
           is_translating (globals s) = false ->
           translator (globals s) = Some t ->
           send_key_error env = None ->
           paste_error env = None ->
           blank (clipboard_after_copy env s) ->
           let r := do_translate detect_and_set translate' env s in
           snd r = popup_error env
           /\ globals (fst r) = globals s
           /\ calls (fst r)
              = [CallErrorPopup no_selection_message; CallPaste;
                 CallSendCopyKey] ++ calls s
           /\ existsb translator_call
                      [CallErrorPopup no_selection_message; CallPaste;
                       CallSendCopyKey] = false).
Proof.
  intros detect sd tr das tr' env. split.
  - intros w s Ho Ht.
    assert (E : truthy (ManualTranslationWindow.input_text w) = false)
      by (apply input_text_empty; split; assumption).
    unfold ManualTranslationWindow.do_translate.
    fold (ManualTranslationWindow.input_text w).
    rewrite E, (move_back_blank w E). reflexivity.
  - intros s t Hg Ht Hsend Hpaste Hblank r. subst r.
    unfold do_translate, enter. rewrite Hg.
    unfold do_translate_body. cbn [globals with_globals translator
                                     set_is_translating].
    rewrite Ht, Hsend, Hpaste.
    unfold clipboard_after_copy in Hblank.
    destruct (selection env) as [sel|];
      cbn [clipboard call with_clipboard with_globals];
      rewrite (hotkey_blank_test _ Hblank);
      unfold show_error_popup, leave; cbn;
      (repeat split; try reflexivity);
      rewrite <- (globals_guard_roundtrip (globals s) Hg) at 2; reflexivity.
Qed.

Lemma blank_input_rejected_witness :
  ManualTranslationWindow.do_translate
    detect_half Engine.set_translation_direction
    (Engine.translate_text detect_half no_rules answering) quiet_env
    (window_with [32; 9; 12288]%N [] false) sample_shell
  = (set_status StEnterSource (window_with [32; 9; 12288]%N [] false),
     sample_shell, None)
  /\ globals (fst (do_translate
                     (Engine.detect_and_set_direction detect_half)
                     (Engine.translate_text detect_half no_rules answering)
                     blank_selection_env sample_shell))
     = globals sample_shell.
Proof.
  destruct (blank_input_rejected
              detect_half Engine.set_translation_direction
              (Engine.translate_text detect_half no_rules answering)
              (Engine.detect_and_set_direction detect_half)
              (Engine.translate_text detect_half no_rules answering) quiet_env)
    as [Hmanual _].
  destruct (blank_input_rejected
              detect_half Engine.set_translation_direction
              (Engine.translate_text detect_half no_rules answering)
              (Engine.detect_and_set_direction detect_half)
              (Engine.translate_text detect_half no_rules answering) blank_selection_env)
    as [_ Hhotkey].
  split.
  - apply Hmanual.
    + repeat constructor.
    + discriminate.
  - apply (Hhotkey sample_shell sample_translator);
      try reflexivity. repeat constructor.
Defined.

(** ** The re-entrancy guard of the hot-key path *)

Section Guard.

Variable detect_and_set_direction : text -> method (string * string).
Variable translate_text : text -> method text.

Let body := do_translate_body detect_and_set_direction translate_text.
Lemma report_guard env txt out t s :
  is_translating (globals (fst (report env txt out t s)))
  = is_translating (globals s).
Proof.
  unfold report.
  destruct (copy_error env), (log_error env), (current_model t); reflexivity.
Qed.

(** The [try] block never writes the guard. *)
Lemma body_keeps_guard env s :
  is_translating (globals (fst (body env s))) = is_translating (globals s).
Proof.
  unfold body, do_translate_body.
  destruct (translator (globals s)) as [t|]; [|reflexivity].
  destruct (send_key_error env); [reflexivity|].
  destruct (paste_error env);
    [destruct (selection env); reflexivity|].
  destruct (_ || _); [destruct (selection env); reflexivity|].
  destruct (detect_and_set_direction _ t) as [t1 [e|d]];
    [destruct (selection env); reflexivity|].
  destruct (translate_text _ t1) as [t2 [e|out]];
    [destruct (selection env); reflexivity|].
  rewrite report_guard. destruct (selection env); reflexivity.
Qed.

(** *** Threads of [on_hotkey] *)















End Guard.



Example hotkey_success_run :
  let r := do_translate (Engine.detect_and_set_direction detect_half)
                        (Engine.translate_text detect_half no_rules answering)
                        greeting_env sample_shell in
  snd r = Some "TclError"
  /\ is_translating (globals (fst r)) = false
  /\ clipboard (fst r) = konnichiwa
  /\ option_map direction (translator (globals (fst r)))
     = Some (Some ("ko", "ja")).
Proof. vm_compute. repeat split. Qed.

(** ** The credential gate of [init_translator] *)

Section Gate.

Lemma provider_key_ok_false p :
  provider_key_ok p = false
  <-> unconfigured (get_or_empty (Config.api_key p)).
Proof.
  unfold provider_key_ok, unconfigured. cbv zeta.
  rewrite andb_false_iff, negb_false_iff, str_truthy_false, str_in_In.
  reflexivity.
Qed.

Lemma scan_providers_false ps :
  scan_providers ps = false
  <-> Forall (fun p => unconfigured (get_or_empty (Config.api_key p))) ps.
Proof.
  induction ps as [|p ps IH]; simpl.
  - split; [constructor | reflexivity].
  - destruct (provider_key_ok p) eqn:E.
    + split; [discriminate|]. intros H. inversion H as [|? ? Hp _]; subst.
      apply provider_key_ok_false in Hp. congruence.
    + rewrite IH. split.
      * intros H. constructor; [now apply provider_key_ok_false | exact H].
      * intros H. now inversion H.
Qed.

Lemma single_key_false key :
  str_truthy key && negb (key =? "YOUR_API_KEY_HERE")%string = false
  <-> key = "" \/ key = "YOUR_API_KEY_HERE".
Proof.
  rewrite andb_false_iff, negb_false_iff, str_truthy_false, String.eqb_eq.
  reflexivity.
Qed.

Lemma gate_false_unconfigured a :
  has_valid_key a = false -> Forall unconfigured (credentials a).
Proof.
  unfold has_valid_key, credentials.
  destruct (Config.providers a) as [ps|].
  - intros H. apply scan_providers_false in H. now apply Forall_map.
  - intros H. apply single_key_false in H. constructor; [|constructor].
    destruct H as [H|H]; [now left | right; rewrite H; now left].
Qed.

Lemma usable_providers_nil ps :
  Engine.usable_providers ps = []
  <-> Forall (fun p => unconfigured (get_or_empty (Config.api_key p))) ps.
Proof.
  induction ps as [|p ps IH]; simpl.
  - split; [constructor | reflexivity].
  - unfold Engine.usable. destruct (provider_key_ok p) eqn:E.
    + split; [discriminate|]. intros H. inversion H as [|? ? Hp _]; subst.
      apply provider_key_ok_false in Hp. congruence.
    + rewrite IH. split.
      * intros H. constructor; [now apply provider_key_ok_false | exact H].
      * intros H. now inversion H.
Qed.

Lemma construct_fails_iff cfg :
  (exists e, Engine.construct cfg = inl e)
  <-> Forall unconfigured (credentials (Config.api_or_empty cfg)).
Proof.
  unfold Engine.construct, credentials. cbv zeta.
  destruct (Config.providers (Config.api_or_empty cfg)) as [ps|].
  - rewrite Forall_map, <- usable_providers_nil.
    destruct (Engine.usable_providers ps).
    + split; [reflexivity | intros _; now eexists].
    + split; [intros [e H]; discriminate H | discriminate].
  - set (entry := {| Config.name := "default"; Config.model := "default";
                     Config.api_key :=
                       Config.single_api_key (Config.api_or_empty cfg) |}).
    pose proof (provider_key_ok_false entry) as Hok. simpl in Hok.
    simpl. unfold Engine.usable. destruct (provider_key_ok entry).
    + split; [intros [e He]; discriminate He|].
      intros F. inversion F as [|? ? Hk _]; subst.
      apply Hok in Hk. discriminate Hk.
    + split; [|intros _; now eexists].
      intros _. constructor; [now apply Hok | constructor].
Qed.

End Gate.

(** C4. With the engine's constructor as the specification describes it:
    a start-up that loads a configuration fails, installing no translator,
    if and only if every credential the configuration declares is empty
    or one of the placeholder sentinels; and as soon as one credential is
    neither, construction proceeds and the constructed translator is
    installed. *)
Theorem initialization_fails_iff_unconfigured :
  forall cfg : Config.Config,
    let keys := credentials (Config.api_or_empty cfg) in
    (initialization_fails Engine.construct cfg <-> Forall unconfigured keys)
    /\ (Exists (fun key => ~ unconfigured key) keys ->
        construction_proceeds Engine.construct cfg).
Proof.
  intros cfg keys. subst keys.
  assert (Hproceed :
            ~ Forall unconfigured (credentials (Config.api_or_empty cfg)) ->
            construction_proceeds Engine.construct cfg).
  { intros Hn.
    assert (Hkey : has_valid_key (Config.api_or_empty cfg) = true).
    { destruct (has_valid_key (Config.api_or_empty cfg)) eqn:E;
        [reflexivity|]. exfalso. now apply Hn, gate_false_unconfigured. }
    destruct (Engine.construct cfg) as [e|t] eqn:C.
    - exfalso. apply Hn, construct_fails_iff. now exists e.
    - exists t. split; [exact C|]. intros lp d g Hex Hload.
      unfold init_translator. rewrite Hex, Hload. simpl.
      rewrite Hkey. simpl. rewrite C.
      destruct (lp d cfg t) as [t' [e|]]; reflexivity. }
  split; [split|].
  - intros Hfail.
    destruct (Engine.construct cfg) as [e|t] eqn:C.
    + apply construct_fails_iff. now exists e.
    + destruct (has_valid_key (Config.api_or_empty cfg)) eqn:Hkey;
        [|now apply gate_false_unconfigured].
      exfalso.
      destruct (Hfail no_prompts (sample_disk cfg) fresh_globals
                      eq_refl eq_refl) as [m Hm].
      unfold init_translator in Hm. simpl in Hm.
      rewrite Hkey in Hm. simpl in Hm. rewrite C in Hm.
      discriminate Hm.
  - intros Hall lp d g Hex Hload.
    unfold init_translator. rewrite Hex, Hload. simpl.
    destruct (has_valid_key (Config.api_or_empty cfg));
      simpl; [|now eexists].
    destruct (proj2 (construct_fails_iff cfg) Hall) as [e ->]. now eexists.
  - intros Hex. apply Hproceed. intros Hall.
    apply Exists_exists in Hex. destruct Hex as (k & Hin & Hk).
    apply Hk. rewrite Forall_forall in Hall. now apply Hall.
Qed.

Lemma initialization_fails_iff_unconfigured_witness :
  initialization_fails Engine.construct sentinel_config
  /\ initialization_fails Engine.construct single_key_config
  /\ construction_proceeds Engine.construct working_config.
Proof.
  split; [|split].
  - apply (proj1 (initialization_fails_iff_unconfigured sentinel_config)).
    simpl. repeat constructor; unfold unconfigured; simpl; tauto.
  - apply (proj1 (initialization_fails_iff_unconfigured single_key_config)).
    simpl. repeat constructor; unfold unconfigured; simpl; tauto.
  - apply (proj2 (initialization_fails_iff_unconfigured working_config)).
    simpl. apply Exists_cons_tl, Exists_cons_hd.
    intros [E|[E|[E|[E|[]]]]]; discriminate E.
Defined.

Example start_up_with_working_config :
  init_translator Engine.construct (fun _ _ t => (t, None))
                  {| config_exists := true; load_config := inr working_config |}
                  {| translator := None; config := None;
                     is_translating := false |}
  = ({| translator :=
          Some {| providers :=
                    [ {| name := "anthropic"; model := "claude-3-haiku";
                         credential := "sk-live-1" |} ];
                  current_provider_index := 0; direction := None;
                  last_usage := None; switch_log := [] |};
        config := Some working_config; is_translating := false |},
     InitReturned true MsgOK).
Proof. reflexivity. Qed.

(** ** Failover in the engine *)

Section Failover.

Variable detector : text -> string.
Variable substitute : string * string -> text -> text.
Variable request : Provider -> string * string -> text ->
                   exn + (text * option Z).







End Failover.

Section TranslateCall.

Variable detector : text -> string.
Variable substitute : string * string -> text -> text.
Variable request : Provider -> string * string -> text ->
                   exn + (text * option Z).



End TranslateCall.




(** * Further properties of the service *)

(** ** More facts about [strip] *)

Lemma lstrip_keeps_head c l : isspace c = false -> lstrip (c :: l) = c :: l.
Proof. intros H. simpl. now rewrite H. Qed.

Lemma lstrip_shape s :
  lstrip s = [] \/ exists c l, lstrip s = c :: l /\ isspace c = false.
Proof.
  destruct (lstrip s) as [|c l] eqn:E; [now left|].
  right. exists c, l. split; [reflexivity|]. eapply lstrip_head, E.
Qed.

Lemma rstrip_newline s : rstrip (widget_get s) = rstrip s.
Proof.
  unfold rstrip, widget_get. rewrite rev_app_distr. reflexivity.
Qed.

(** The newline a text widget appends never survives [strip]. *)
Lemma strip_widget_get s : strip (widget_get s) = strip s.
Proof. unfold strip. now rewrite rstrip_newline. Qed.

Lemma rstrip_lstrip_rstrip s : rstrip (lstrip (rstrip s)) = lstrip (rstrip s).
Proof.
  destruct (lstrip_suffix (rstrip s)) as [p [_ Hp]].
  destruct (lstrip (rstrip s)) as [|a l] eqn:E; [reflexivity|].
  unfold rstrip at 1.
  destruct (rev (a :: l)) as [|b m] eqn:R.
  - apply (f_equal (@List.length _)) in R. rewrite length_rev in R.
    discriminate R.
  - assert (Hb : isspace b = false).
    { unfold rstrip in Hp. apply (f_equal (@rev _)) in Hp.
      rewrite rev_involutive, rev_app_distr, R in Hp. simpl in Hp.
      eapply lstrip_head. exact Hp. }
    rewrite (lstrip_keeps_head _ _ Hb), <- R. apply rev_involutive.
Qed.

Lemma strip_idempotent s : strip (strip s) = strip s.
Proof.
  unfold strip. rewrite rstrip_lstrip_rstrip.
  destruct (lstrip_shape (rstrip s)) as [->|(c & l & -> & Hc)].
  - reflexivity.
  - now apply lstrip_keeps_head.
Qed.

(** ** The manual window beyond direction resolution *)

Section ManualWindow.

Import ManualTranslationWindow.

Variable detect_source_language : text -> string.
Variable set_translation_direction : string -> string -> method unit.
Variable translate_text : text -> method text.

Let run := do_translate detect_source_language set_translation_direction
                        translate_text.

Lemma input_text_choice w :
  input_text w
  = if has_translation w && truthy (strip (translated_text w))
    then strip (translated_text w)
    else strip (original_text w).
Proof.
  unfold input_text, move_translation_back.
  rewrite (strip_widget_get (translated_text w)).
  destruct (has_translation w); simpl.
  - destruct (truthy (strip (translated_text w))).
    + cbn [original_text]. now rewrite strip_widget_get, strip_idempotent.
    + apply strip_widget_get.
  - apply strip_widget_get.
Qed.

Lemma move_back_frame w :
  model_list (move_translation_back w) = model_list w
  /\ model_combo (move_translation_back w) = model_combo w
  /\ status_label (move_translation_back w) = status_label w.
Proof.
  unfold move_translation_back.
  destruct (has_translation w); [|auto].
  destruct (truthy _); auto.
Qed.

Lemma run_blank env w s :
  truthy (input_text w) = false ->
  run env w s = (set_status StEnterSource w, s, None).
Proof.
  intros E. unfold run, do_translate. fold (input_text w).
  rewrite E, (move_back_blank w E). reflexivity.
Qed.

(** The run on a non-blank text with a translator, up to the call of
    [translate_text]. *)
Lemma run_unfold env w s t :
  truthy (input_text w) = true ->
  translator (globals s) = Some t ->
  run env w s
  = let '(source, target, target_var) :=
      resolve_direction detect_source_language (input_text w)
                        (target_lang_var w) in
    let w1 := set_target_lang_var target_var (move_translation_back w) in
    let s1 := call (CallSetDirection source target)
                   (call (CallDetect (input_text w)) s) in
    match set_translation_direction source target t with
    | (t1, inl e) => (w1, with_translator t1 s1, Some e)
    | (t1, inr _) =>
        let w2 := set_status (StTranslating (lang_names_get source)
                                            (lang_names_get target)) w1 in
        let s2 := call (CallTranslate (input_text w)) s1 in
        match translate_text (input_text w) t1 with
        | (t2, inl e) =>
            (set_status (StFailed e) w2, with_translator t2 s2, None)
        | (t2, inr translated) =>
            show_result env source target (input_text w) translated t2 w2
                        (with_translator t2 s2)
        end
    end.
Proof.
  intros E Ht. unfold run, do_translate. fold (input_text w).
  rewrite E, Ht. simpl negb. cbv iota. rewrite move_back_target_var.
  destruct (resolve_direction detect_source_language (input_text w)
                              (target_lang_var w)) as [[source target] tv].
  reflexivity.
Qed.

End ManualWindow.

(** X1. Which pane is translated. The text the manual window works on is
    the stripped result pane when the window is in re-translation mode and
    that pane is not blank, and the stripped source pane otherwise; the
    newline a text widget appends and surrounding white space never reach
    the detector. *)
Theorem translated_pane_choice :
  forall detect set_direction translate env w s t,
    let chosen :=
      if has_translation w && truthy (strip (translated_text w))
      then strip (translated_text w)
      else strip (original_text w) in
    ManualTranslationWindow.input_text w = chosen
    /\ (truthy chosen = true ->
        translator (globals s) = Some t ->
        exists later source target,
          calls (snd (fst (ManualTranslationWindow.do_translate
                             detect set_direction translate env w s)))
          = later ++ CallSetDirection source target
                  :: CallDetect chosen :: calls s).
Proof.
  intros detect sd tr env w s t chosen.
  assert (E : ManualTranslationWindow.input_text w = chosen)
    by apply input_text_choice.
  split; [exact E|]. intros Hne Ht. rewrite <- E in *.
  destruct (do_translate_direction_call detect sd tr env w s t Hne Ht)
    as [later Hl].
  eexists later, _, _. exact Hl.
Qed.

(** X2. Editing the source pane ends re-translation mode: after
    [_on_original_text_change] the next run works on the stripped source
    pane and leaves both panes where they are until the translator
    answers; the handler changes neither pane and is idempotent. *)
Theorem edit_cancels_retranslation :
  forall w,
    let w' := ManualTranslationWindow._on_original_text_change w in
    ManualTranslationWindow.input_text w' = strip (original_text w)
    /\ ManualTranslationWindow.move_translation_back w' = w'
    /\ original_text w' = original_text w
    /\ translated_text w' = translated_text w
    /\ ManualTranslationWindow._on_original_text_change w' = w'.
Proof.
  intros w w'. subst w'.
  unfold ManualTranslationWindow._on_original_text_change.
  destruct (has_translation w) eqn:H.
  - rewrite input_text_choice. simpl. repeat split; reflexivity.
  - split; [rewrite input_text_choice, H; reflexivity|].
    split; [unfold ManualTranslationWindow.move_translation_back;
            now rewrite H|].
    repeat split; try reflexivity. now rewrite H.
Qed.

(** X3. After [do_reset] the window is blank: a run is rejected with the
    enter-source message and leaves the shell alone, whatever the window
    held before; the reset keeps the model list and selection, and doing
    it twice changes nothing more. *)
Theorem reset_then_translate_rejected :
  forall detect set_direction translate env w s,
    let w' := ManualTranslationWindow.do_reset w in
    ManualTranslationWindow.do_translate detect set_direction translate
                                         env w' s
    = (set_status StEnterSource w', s, None)
    /\ ManualTranslationWindow.do_reset w' = w'
    /\ model_list w' = model_list w
    /\ model_combo w' = model_combo w.
Proof.
  intros detect sd tr env w s w'. split; [|repeat split].
  apply run_blank. reflexivity.
Qed.

(** X4. [copy_result] on a blank result pane does nothing at all; on any
    other pane, when the clipboard accepts the text, it puts the stripped
    result there and reports it in the status label. It never touches the
    translator, the guard or the saved logs. *)
Theorem copy_result_effects :
  forall env w s,
    let r := ManualTranslationWindow.copy_result env w s in
    (blank (translated_text w) -> r = (w, s, None))
    /\ (~ blank (translated_text w) ->
        copy_error env = false ->
        r = (set_status StCopied w,
             with_clipboard (strip (translated_text w))
                            (call (CallCopy (strip (translated_text w))) s),
             None))
    /\ globals (snd (fst r)) = globals s
    /\ translations (snd (fst r)) = translations s.
Proof.
  intros env w s r. subst r. unfold ManualTranslationWindow.copy_result.
  cbv zeta. rewrite strip_widget_get.
  destruct (truthy (strip (translated_text w))) eqn:T.
  - split; [|split].
    + intros B. apply strip_empty_iff in B. congruence.
    + intros _ ->. reflexivity.
    + destruct (copy_error env); split; reflexivity.
  - split; [reflexivity|]. split; [|split; reflexivity].
    intros B. exfalso. apply B. now apply strip_empty_iff.
Qed.

(** X5. A failed translation in the manual window. When [translate_text]
    raises, the handler returns normally: the status label shows the
    failure, the panes are as the move of re-translation mode left them
    (the previous result, if any, now sits in the source pane and the
    result pane is empty), the clipboard, the saved logs and the
    preference are untouched, and the translator global holds the state
    the failed call left behind. *)
Theorem manual_translate_failure :
  forall detect set_direction translate env w s t t1 t2 u e,
    truthy (ManualTranslationWindow.input_text w) = true ->
    translator (globals s) = Some t ->
    (let '(source, target, _) :=
       ManualTranslationWindow.resolve_direction
         detect (ManualTranslationWindow.input_text w) (target_lang_var w) in
     set_direction source target t) = (t1, inr u) ->
    translate (ManualTranslationWindow.input_text w) t1 = (t2, inl e) ->
    let r := ManualTranslationWindow.do_translate
               detect set_direction translate env w s in
    let w0 := ManualTranslationWindow.move_translation_back w in
    snd r = None
    /\ status_label (fst (fst r)) = StFailed e
    /\ original_text (fst (fst r)) = original_text w0
    /\ translated_text (fst (fst r)) = translated_text w0
    /\ has_translation (fst (fst r)) = has_translation w0
    /\ translator (globals (snd (fst r))) = Some t2
    /\ clipboard (snd (fst r)) = clipboard s
    /\ translations (snd (fst r)) = translations s
    /\ preference (snd (fst r)) = preference s
    /\ (has_translation w = true ->
        truthy (strip (translated_text w)) = true ->
        original_text (fst (fst r)) = strip (translated_text w)
        /\ translated_text (fst (fst r)) = []
        /\ has_translation (fst (fst r)) = false).
Proof.
  intros detect sd tr env w s t t1 t2 u e Hne Ht Hsd Htr r w0. subst r w0.
  rewrite (run_unfold detect sd tr env w s t Hne Ht).
  destruct (ManualTranslationWindow.resolve_direction
              detect (ManualTranslationWindow.input_text w)
              (target_lang_var w)) as [[source target] tv].
  cbv zeta. rewrite Hsd, Htr. cbn [fst snd].
  repeat (split; [reflexivity|]).
  intros Hhas Hres. cbn.
  unfold ManualTranslationWindow.move_translation_back.
  rewrite Hhas, strip_widget_get, Hres. repeat split.
Qed.


Lemma show_result_frame env source target txt out t w s :
  let r := ManualTranslationWindow.show_result env source target txt out t w s in
  model_list (fst (fst r)) = model_list w
  /\ model_combo (fst (fst r)) = model_combo w
  /\ target_lang_var (fst (fst r)) = target_lang_var w
  /\ preference (snd (fst r)) = preference s
  /\ globals (snd (fst r)) = globals s.
Proof.
  unfold ManualTranslationWindow.show_result. cbv zeta.
  destruct (current_model t); [|repeat split].
  destruct (copy_error env), (log_error env); repeat split.
Qed.

(** X7. What a run of the manual window never does: whatever the text, the
    translator and the surroundings do, [do_translate] leaves the model
    list, the model selection, the saved preference, the loaded
    configuration and the hot-key guard as they were, and the target radio
    variable ends as it was or as one of [ja] and [ko]. *)
Theorem manual_translate_frame :
  forall detect set_direction translate env w s,
    let r := ManualTranslationWindow.do_translate
               detect set_direction translate env w s in
    model_list (fst (fst r)) = model_list w
    /\ model_combo (fst (fst r)) = model_combo w
    /\ preference (snd (fst r)) = preference s
    /\ config (globals (snd (fst r))) = config (globals s)
    /\ is_translating (globals (snd (fst r))) = is_translating (globals s)
    /\ (target_lang_var (fst (fst r)) = target_lang_var w
        \/ target_lang_var (fst (fst r)) = "ja"
        \/ target_lang_var (fst (fst r)) = "ko").
Proof.
  intros detect sd tr env w s r. subst r.
  destruct (move_back_frame w) as (Hl & Hc & _).
  destruct (truthy (ManualTranslationWindow.input_text w)) eqn:E.
  2:{ rewrite (run_blank detect sd tr env w s E). cbn. tauto. }
  destruct (translator (globals s)) as [t|] eqn:Ht.
  2:{ unfold ManualTranslationWindow.do_translate.
      fold (ManualTranslationWindow.input_text w). rewrite E, Ht. cbn.
      rewrite Hl, Hc, move_back_target_var. tauto. }
  rewrite (run_unfold detect sd tr env w s t E Ht).
  assert (Hv : forall source target tv,
             ManualTranslationWindow.resolve_direction
               detect (ManualTranslationWindow.input_text w)
               (target_lang_var w) = (source, target, tv) ->
             tv = target_lang_var w \/ tv = "ja" \/ tv = "ko").
  { unfold ManualTranslationWindow.resolve_direction. intros a b tv.
    repeat match goal with
           | |- context [if ?c then _ else _] => destruct c
           end; intros [= _ _ <-]; auto. }
  destruct (ManualTranslationWindow.resolve_direction
              detect (ManualTranslationWindow.input_text w)
              (target_lang_var w)) as [[source target] tv] eqn:R.
  specialize (Hv source target tv eq_refl). cbv zeta.
  destruct (sd source target t) as [t1 [e|u]]; [cbn; rewrite Hl, Hc; tauto|].
  destruct (tr (ManualTranslationWindow.input_text w) t1) as [t2 [e|out]];
    [cbn; rewrite Hl, Hc; tauto|].
  match goal with
  | |- context [ManualTranslationWindow.show_result ?a ?b ?c ?d ?e ?f ?g ?h] =>
      destruct (show_result_frame a b c d e f g h) as (F1 & F2 & F3 & F4 & F5)
  end.
  rewrite F1, F2, F3, F4, F5. cbn. rewrite Hl, Hc. tauto.
Qed.

(** ** Model preference across windows *)









(** ** The hot-key path beyond the guard *)

Section HotkeyRuns.

Variable detect_and_set_direction : text -> method (string * string).
Variable translate_text : text -> method text.

Let body := do_translate_body detect_and_set_direction translate_text.
Let run := do_translate detect_and_set_direction translate_text.

Lemma run_clear env s :
  is_translating (globals s) = false ->
  run env s
  = (leave (fst (body env (with_globals
                             (set_is_translating true (globals s)) s))),
     snd (body env (with_globals (set_is_translating true (globals s)) s))).
Proof.
  intros Hg. unfold run, do_translate, enter. rewrite Hg.
  fold body. now destruct (body env _).
Qed.

Lemma report_frame env txt out t s :
  preference (fst (report env txt out t s)) = preference s
  /\ config (globals (fst (report env txt out t s))) = config (globals s).
Proof.
  unfold report.
  destruct (copy_error env), (log_error env), (current_model t);
    split; reflexivity.
Qed.

Lemma body_frame env s :
  preference (fst (body env s)) = preference s
  /\ config (globals (fst (body env s))) = config (globals s).
Proof.
  unfold body, do_translate_body.
  destruct (translator (globals s)) as [t|]; [|split; reflexivity].
  destruct (send_key_error env); [split; reflexivity|].
  destruct (paste_error env);
    [destruct (selection env); split; reflexivity|].
  destruct (_ || _); [destruct (selection env); split; reflexivity|].
  destruct (detect_and_set_direction _ t) as [t1 [e|d]];
    [destruct (selection env); split; reflexivity|].
  destruct (translate_text _ t1) as [t2 [e|out]];
    [destruct (selection env); split; reflexivity|].
  match goal with
  | |- context [report ?a ?b ?c ?d ?e] =>
      destruct (report_frame a b c d e) as [-> ->]
  end.
  destruct (selection env); split; reflexivity.
Qed.

(** The [try] block on a non-blank selection, up to the call of
    [translate_text]. *)
Lemma body_selection env s t sel :
  translator (globals s) = Some t ->
  send_key_error env = None ->
  paste_error env = None ->
  selection env = Some sel ->
  truthy (strip sel) = true ->
  body env s
  = let s1 := call (CallDetectAndSet (strip sel))
                   (call CallPaste
                         (with_clipboard sel (call CallSendCopyKey s))) in
    match detect_and_set_direction (strip sel) t with
    | (t1, inl e) => (with_translator t1 s1, Some e)
    | (t1, inr _) =>
        let s2 := call (CallTranslate (strip sel)) (with_translator t1 s1) in
        match translate_text (strip sel) t1 with
        | (t2, inl e) =>
            show_error_popup env ("번역 실패: " ++ e)%string
                             (with_translator t2 s2)
        | (t2, inr translated) =>
            report env (strip sel) translated t2 (with_translator t2 s2)
        end
    end.
Proof.
  intros Ht Hsend Hpaste Hsel Hne.
  unfold body, do_translate_body. rewrite Ht, Hsend, Hpaste, Hsel.
  cbn [clipboard call with_clipboard].
  assert (Hsel' : truthy sel = true).
  { destruct sel; [discriminate Hne | reflexivity]. }
  rewrite Hsel', Hne. reflexivity.
Qed.

End HotkeyRuns.

(** X10. A hot-key run without a translator shows the not-initialised
    popup and nothing else: the copy key is not sent, the clipboard is not
    read, and the shell differs from the one before only by that popup. *)
Theorem hotkey_without_translator :
  forall detect_and_set translate env s,
    is_translating (globals s) = false ->
    translator (globals s) = None ->
    do_translate detect_and_set translate env s
    = (call (CallErrorPopup "번역기가 초기화되지 않았습니다.") s, popup_error env).
Proof.
  intros das tr env s Hg Ht.
  rewrite (run_clear das tr env s Hg).
  unfold do_translate_body. cbn [globals with_globals translator
                                   set_is_translating].
  rewrite Ht. unfold show_error_popup, leave, with_globals, call. cbn.
  now rewrite (globals_guard_roundtrip (globals s) Hg).
Qed.

(** X11. A failed translation on the hot-key path. The selection has
    replaced the user's clipboard by then and stays there; the failure is
    shown in an error popup; nothing is logged; the translator global
    holds the state the failed call left behind; the guard is clear
    again. The translator was asked for the stripped selection. *)
Theorem hotkey_translate_failure :
  forall detect_and_set translate env s t sel t1 d t2 e,
    is_translating (globals s) = false ->
    translator (globals s) = Some t ->
    send_key_error env = None ->
    paste_error env = None ->
    selection env = Some sel ->
    truthy (strip sel) = true ->
    detect_and_set (strip sel) t = (t1, inr d) ->
    translate (strip sel) t1 = (t2, inl e) ->
    let r := do_translate detect_and_set translate env s in
    snd r = popup_error env
    /\ clipboard (fst r) = sel
    /\ translations (fst r) = translations s
    /\ translator (globals (fst r)) = Some t2
    /\ is_translating (globals (fst r)) = false
    /\ calls (fst r)
       = [CallErrorPopup ("번역 실패: " ++ e)%string;
          CallTranslate (strip sel); CallDetectAndSet (strip sel);
          CallPaste; CallSendCopyKey] ++ calls s.
Proof.
  intros das tr env s t sel t1 d t2 e Hg Ht Hsend Hpaste Hsel Hne Hd Htr r.
  subst r. rewrite (run_clear das tr env s Hg).
  rewrite (body_selection
             das tr env (with_globals (set_is_translating true (globals s)) s)
             t sel Ht Hsend Hpaste Hsel Hne).
  cbv zeta. rewrite Hd, Htr. repeat split.
Qed.


(** X13. What a hot-key run never changes: on every path, the saved model
    preference and the loaded configuration are as before, and the guard
    ends with the value it had when the run started. *)
Theorem hotkey_frame :
  forall detect_and_set translate env s,
    let r := do_translate detect_and_set translate env s in
    preference (fst r) = preference s
    /\ config (globals (fst r)) = config (globals s)
    /\ is_translating (globals (fst r)) = is_translating (globals s).
Proof.
  intros das tr env s r. subst r.
  destruct (is_translating (globals s)) eqn:Hg.
  - unfold do_translate, enter. rewrite Hg. cbn. now rewrite Hg.
  - rewrite (run_clear das tr env s Hg). cbn [fst].
    destruct (body_frame das tr env
                (with_globals (set_is_translating true (globals s)) s))
      as [Hp Hc].
    unfold leave. cbn. rewrite Hp, Hc. repeat split.
Qed.

(** ** Re-translation from the result popup *)

Section PopupRuns.

Import TranslationPopup.

Variable detect_and_set_direction : text -> method (string * string).
Variable translate_text : text -> method text.

Let run := do_retranslate detect_and_set_direction translate_text.

Lemma retranslate_unfold env p s t :
  translator (globals s) = Some t ->
  truthy (strip (popup_translated p)) = true ->
  run env p s
  = let txt := strip (popup_translated p) in
    let s1 := call (CallDetectAndSet txt) s in
    match detect_and_set_direction txt t with
    | (t1, inl e) => (p, with_translator t1 s1, Some e)
    | (t1, inr (source, target)) =>
        let p1 := set_popup_status
                    (PsRetranslating (lang_names_get source)
                                     (lang_names_get target)) p in
        let s2 := call (CallTranslate txt) (with_translator t1 s1) in
        match translate_text txt t1 with
        | (t2, inl e) =>
            (set_popup_status (PsFailed e) p1, with_translator t2 s2, None)
        | (t2, inr out) =>
            let s3 := call (CallCopy out) (with_translator t2 s2) in
            let s4 := if copy_error env then s3 else with_clipboard out s3 in
            let p2 := {| popup_status := popup_status p1;
                         popup_original := txt;
                         popup_translated := out |} in
            match current_model t2 with
            | None => (p2, s4, Some "IndexError")
            | Some model_info =>
                (set_popup_status
                   (PsRetranslated (lang_names_get source)
                                   (lang_names_get target)
                                   model_info (last_usage t2)) p2,
                 s4, None)
            end
        end
    end.
Proof.
  intros Ht Hne. unfold run, do_retranslate.
  rewrite Ht, strip_widget_get, Hne. reflexivity.
Qed.

End PopupRuns.

(** X14. A failed re-translation from the popup loses nothing: when
    [translate_text] raises, both panes keep their content, the failure is
    shown in the status label, the clipboard still holds what it held, and
    the handler returns normally. *)
Theorem popup_retranslate_failure :
  forall detect_and_set translate env p s t t1 d t2 e,
    translator (globals s) = Some t ->
    truthy (strip (TranslationPopup.popup_translated p)) = true ->
    detect_and_set (strip (TranslationPopup.popup_translated p)) t
    = (t1, inr d) ->
    translate (strip (TranslationPopup.popup_translated p)) t1
    = (t2, inl e) ->
    let r := TranslationPopup.do_retranslate
               detect_and_set translate env p s in
    snd r = None
    /\ TranslationPopup.popup_original (fst (fst r))
       = TranslationPopup.popup_original p
    /\ TranslationPopup.popup_translated (fst (fst r))
       = TranslationPopup.popup_translated p
    /\ TranslationPopup.popup_status (fst (fst r))
       = TranslationPopup.PsFailed e
    /\ clipboard (snd (fst r)) = clipboard s
    /\ translator (globals (snd (fst r))) = Some t2.
Proof.
  intros das tr env p s t t1 d t2 e Ht Hne Hd Htr r. subst r.
  rewrite (retranslate_unfold das tr env p s t Ht Hne). cbv zeta.
  rewrite Hd. destruct d as [source target]. rewrite Htr. repeat split.
Qed.

(** X15. A successful re-translation from the popup shifts the panes: the
    stripped previous translation becomes the original, the answer becomes
    the translation, and the clipboard receives the answer when copying
    works. The translator was asked for the stripped previous
    translation. *)
Theorem popup_retranslate_success :
  forall detect_and_set translate env p s t t1 d t2 out label,
    translator (globals s) = Some t ->
    truthy (strip (TranslationPopup.popup_translated p)) = true ->
    detect_and_set (strip (TranslationPopup.popup_translated p)) t
    = (t1, inr d) ->
    translate (strip (TranslationPopup.popup_translated p)) t1
    = (t2, inr out) ->
    current_model t2 = Some label ->
    let r := TranslationPopup.do_retranslate
               detect_and_set translate env p s in
    snd r = None
    /\ TranslationPopup.popup_original (fst (fst r))
       = strip (TranslationPopup.popup_translated p)
    /\ TranslationPopup.popup_translated (fst (fst r)) = out
    /\ TranslationPopup.popup_status (fst (fst r))
       = TranslationPopup.PsRetranslated
           (lang_names_get (fst d)) (lang_names_get (snd d)) label
           (last_usage t2)
    /\ clipboard (snd (fst r))
       = (if copy_error env then clipboard s else out)
    /\ translator (globals (snd (fst r))) = Some t2
    /\ calls (snd (fst r))
       = [CallCopy out;
          CallTranslate (strip (TranslationPopup.popup_translated p));
          CallDetectAndSet (strip (TranslationPopup.popup_translated p))]
         ++ calls s.
Proof.
  intros das tr env p s t t1 d t2 out label Ht Hne Hd Htr Hm r. subst r.
  rewrite (retranslate_unfold das tr env p s t Ht Hne). cbv zeta.
  rewrite Hd. destruct d as [source target]. rewrite Htr, Hm.
  destruct (copy_error env); repeat split.
Qed.

(** X16. What re-translation from the popup never does: on every path the
    saved logs, the saved preference, the configuration and the guard are
    unchanged (a re-translation is never logged); and on a blank
    translation pane the handler changes nothing at all, the status label
    included. *)
Theorem popup_retranslate_frame :
  forall detect_and_set translate env p s,
    let r := TranslationPopup.do_retranslate
               detect_and_set translate env p s in
    translations (snd (fst r)) = translations s
    /\ preference (snd (fst r)) = preference s
    /\ config (globals (snd (fst r))) = config (globals s)
    /\ is_translating (globals (snd (fst r))) = is_translating (globals s)
    /\ (forall t, translator (globals s) = Some t ->
                  blank (TranslationPopup.popup_translated p) ->
                  r = (p, s, None)).
Proof.
  intros das tr env p s r. subst r.
  destruct (translator (globals s)) as [t|] eqn:Ht.
  2:{ unfold TranslationPopup.do_retranslate. rewrite Ht.
      repeat split. discriminate. }
  destruct (truthy (strip (TranslationPopup.popup_translated p))) eqn:Hne.
  - rewrite (retranslate_unfold das tr env p s t Ht Hne). cbv zeta.
    assert (Hnb : ~ blank (TranslationPopup.popup_translated p)).
    { intros B. apply strip_empty_iff in B. congruence. }
    destruct (das _ t) as [t1 [e|[source target]]];
      [repeat split; intros; contradiction|].
    destruct (tr _ t1) as [t2 [e|out]];
      [repeat split; intros; contradiction|].
    destruct (current_model t2), (copy_error env);
      repeat split; intros; contradiction.
  - unfold TranslationPopup.do_retranslate.
    rewrite Ht, strip_widget_get, Hne. repeat split.
Qed.

(** ** Start-up beyond the credential gate *)

(** X17. A start-up that reports failure never installs a translator: the
    translator global and the guard are as before; the configuration
    global is as before when the file is missing or does not load, and
    holds the loaded configuration otherwise, even though start-up
    failed. *)
Theorem init_failure_keeps_translator :
  forall ctor load_prompts d g g' message,
    init_translator ctor load_prompts d g = (g', InitReturned false message) ->
    translator g' = translator g
    /\ is_translating g' = is_translating g
    /\ match message with
       | MsgConfigNotFound =>
           config_exists d = false /\ g' = g
       | MsgConfigLoadFailed e =>
           load_config d = inl e /\ g' = g
       | MsgApiKeyMissing =>
           exists cfg, load_config d = inr cfg /\ config g' = Some cfg
                       /\ has_valid_key (Config.api_or_empty cfg) = false
       | MsgInitFailed e =>
           exists cfg, load_config d = inr cfg /\ config g' = Some cfg
                       /\ ctor cfg = inl e
       | MsgOK => False
       end.
Proof.
  intros ctor lp d g g' message. unfold init_translator.
  destruct (config_exists d) eqn:Hex; simpl.
  2:{ intros [= <- <-]. auto. }
  destruct (load_config d) as [e|cfg] eqn:Hload.
  { intros [= <- <-]. auto. }
  destruct (has_valid_key (Config.api_or_empty cfg)) eqn:Hkey; simpl.
  2:{ intros [= <- <-]. repeat split. now exists cfg. }
  destruct (ctor cfg) as [e|t] eqn:Hctor.
  { intros [= <- <-]. repeat split. now exists cfg. }
  destruct (lp d cfg t) as [t' [e|]]; intros H; discriminate H.
Qed.

(** X18. Start-up succeeds in exactly one way: the configuration file
    exists and loads, the credential gate accepts it, the constructor
    returns a translator and loading the dictionary and the prompt does
    not raise; the globals then hold that translator and that
    configuration, and the message is OK. *)
Theorem init_success_iff :
  forall ctor load_prompts d g g' message,
    init_translator ctor load_prompts d g = (g', InitReturned true message)
    <-> (config_exists d = true
         /\ exists cfg t t',
             load_config d = inr cfg
             /\ has_valid_key (Config.api_or_empty cfg) = true
             /\ ctor cfg = inr t
             /\ load_prompts d cfg t = (t', None)
             /\ g' = {| translator := Some t'; config := Some cfg;
                        is_translating := is_translating g |}
             /\ message = MsgOK).
Proof.
  intros ctor lp d g g' message. unfold init_translator. split.
  - intros H.
    destruct (config_exists d); simpl in H; [|discriminate H].
    split; [reflexivity|].
    destruct (load_config d) as [e|cfg] eqn:Hload; [discriminate H|].
    destruct (has_valid_key (Config.api_or_empty cfg)) eqn:Hkey; simpl in H;
      [|discriminate H].
    destruct (ctor cfg) as [e|t] eqn:Hctor; [discriminate H|].
    destruct (lp d cfg t) as [t' [e|]] eqn:Hlp; [discriminate H|].
    injection H as <- <-. exists cfg, t, t'. repeat split; assumption.
  - intros (Hex & cfg & t & t' & Hload & Hkey & Hctor & Hlp & -> & ->).
    rewrite Hex, Hload. simpl. rewrite Hkey. simpl. rewrite Hctor, Hlp.
    reflexivity.
Qed.

(** ** The single-instance lock *)

Section LockRuns.

Variable py_int : text -> option Z.
Variable py_str : Z -> text.
Variable py_lower : text -> text.
Variable Translator_new : Config.Config -> exn + Translator.
Variable load_prompts : Disk -> Config.Config -> Translator ->
                        Translator * option exn.

Let check := check_already_running py_int py_lower.
Let start := main py_int py_str py_lower Translator_new load_prompts.

Lemma main_lock_written env d h s :
  check h = false ->
  lock_writable h = true ->
  lock (fst (fst (start env d h s))) = LockContent (py_str (getpid h)).
Proof.
  intros Hc Hw. unfold start, main. fold check. rewrite Hc.
  unfold create_lock. rewrite Hw.
  destruct (init_translator _ _ d (globals s)) as [g [[|] m|e]];
    try reflexivity.
  unfold show_error_popup. destruct (popup_error env); reflexivity.
Qed.

End LockRuns.

(** X19. The lock round trip between two instances. Once an instance has
    written the lock, and as long as its process is listed under a name
    containing "python" in any letter case, [check_already_running]
    answers true on every host that sees this lock, and a second [main]
    there shows the already-running popup and exits with 0 without
    touching the lock or the globals; after [on_quit] has removed the
    lock, [check_already_running] answers false. *)
Theorem single_instance_lock :
  forall py_int py_str py_lower ctor load_prompts h process_name,
    lock_writable h = true ->
    py_int (strip (py_str (getpid h))) = Some (getpid h) ->
    processes h (getpid h) = ProcessNamed process_name ->
    contains python_word (py_lower process_name) = true ->
    let h1 := fst (create_lock py_str h) in
    snd (create_lock py_str h) = None
    /\ check_already_running py_int py_lower h1 = true
    /\ (forall env d h2 s,
           lock h2 = lock h1 ->
           processes h2 (getpid h) = ProcessNamed process_name ->
           popup_error env = None ->
           main py_int py_str py_lower ctor load_prompts env d h2 s
           = (h2, call (CallErrorPopup already_running_message) s, SysExit 0))
    /\ (lock_removable h = true ->
        check_already_running py_int py_lower (fst (on_quit h1)) = false).
Proof.
  intros py_int py_str py_lower ctor lp h n Hw Hint Hproc Hname h1.
  subst h1. unfold create_lock. rewrite Hw. cbn [fst snd].
  split; [reflexivity|]. split; [|split].
  - unfold check_already_running. cbn. now rewrite Hint, Hproc.
  - intros env d h2 s Hl Hp Hpop.
    assert (Hc : check_already_running py_int py_lower h2 = true).
    { unfold check_already_running. rewrite Hl. cbn. now rewrite Hint, Hp. }
    unfold main. rewrite Hc. unfold show_error_popup. now rewrite Hpop.
  - intros Hr. unfold on_quit, remove_lock, check_already_running. cbn.
    now rewrite Hr.
Qed.

(** X20. [main] never removes the lock it wrote. Whenever the check lets
    it pass and the lock file can be written, the lock holds the own
    process id when [main] ends, whether start-up succeeded, failed with
    exit code 1 or raised; such a left-over lock does not block a later
    start once the process whose id the lock holds no longer exists,
    whatever other processes run. *)
Theorem failed_start_leaves_lock :
  forall py_int py_str py_lower ctor load_prompts env d h s,
    check_already_running py_int py_lower h = false ->
    lock_writable h = true ->
    let r := main py_int py_str py_lower ctor load_prompts env d h s in
    lock (fst (fst r)) = LockContent (py_str (getpid h))
    /\ (forall g' message,
           init_translator ctor load_prompts d (globals s)
           = (g', InitReturned false message) ->
           popup_error env = None ->
           snd r = SysExit 1
           /\ globals (snd (fst r)) = g'
           /\ calls (snd (fst r))
              = CallErrorPopup (init_message_text message) :: calls s)
    /\ (forall h',
           lock h' = lock (fst (fst r)) ->
           (forall pid,
               py_int (strip (py_str (getpid h))) = Some pid ->
               processes h' pid = NoProcess) ->
           check_already_running py_int py_lower h' = false).
Proof.
  intros py_int py_str py_lower ctor lp env d h s Hc Hw r. subst r.
  pose proof (main_lock_written py_int py_str py_lower ctor lp env d h s
                                Hc Hw) as Hlock.
  split; [exact Hlock|]. split.
  - intros g' message Hinit Hpop. unfold main. rewrite Hc.
    unfold create_lock. rewrite Hw. rewrite Hinit.
    unfold show_error_popup. rewrite Hpop. repeat split.
  - intros h' Hl Hdead. unfold check_already_running.
    rewrite Hl, Hlock.
    destruct (py_int (strip (py_str (getpid h)))) as [q|]; [|reflexivity].
    now rewrite (Hdead q eq_refl).
Qed.

(** ** Saved translation logs *)

Section LogRuns.

Variable datetime : Type.
Variable strftime : datetime -> string -> text.

Lemma name_eq_refl (n : text) (A : Type) (a b : A) :
  (if list_eq_dec N.eq_dec n n then a else b) = a.
Proof. destruct (list_eq_dec N.eq_dec n n); [reflexivity | contradiction]. Qed.

Lemma read_write_same n c fs : read_file n (write_file n c fs) = Some c.
Proof. unfold write_file. simpl. apply name_eq_refl. Qed.

Lemma read_filter_other n n' fs :
  n' <> n ->
  read_file n' (filter (fun e => if list_eq_dec N.eq_dec (fst e) n
                                 then false else true) fs)
  = read_file n' fs.
Proof.
  intros Hne. induction fs as [|[m c] fs IH]; simpl; [reflexivity|].
  destruct (list_eq_dec N.eq_dec m n) as [->|Hm]; simpl.
  - destruct (list_eq_dec N.eq_dec n n') as [E|_]; [congruence | exact IH].
  - destruct (list_eq_dec N.eq_dec m n'); [reflexivity | exact IH].
Qed.

Lemma read_write_other n n' c fs :
  n' <> n -> read_file n' (write_file n c fs) = read_file n' fs.
Proof.
  intros Hne. unfold write_file. simpl.
  destruct (list_eq_dec N.eq_dec n n') as [E|_]; [congruence|].
  now apply read_filter_other.
Qed.

Lemma filter_twice {A} (f : A -> bool) l : filter f (filter f l) = filter f l.
Proof.
  induction l as [|a l IH]; simpl; [reflexivity|].
  destruct (f a) eqn:E; simpl; [rewrite E; now f_equal | exact IH].
Qed.

Lemma write_write_same n c1 c2 fs :
  write_file n c2 (write_file n c1 fs) = write_file n c2 fs.
Proof.
  unfold write_file. simpl. rewrite name_eq_refl. now rewrite filter_twice.
Qed.

End LogRuns.

(** X21. Log files are named by the second, and the file is emptied
    before its content is encoded. In a directory that can be made and
    written to, a save returns the file name when its content has no
    surrogate code point and raises [UnicodeEncodeError] otherwise, and the
    file then reads as that content, or as empty. Two saves whose first
    clock readings format to the same stamp write the same file: after
    both, the directory is exactly what the second save alone would have
    produced, so the earlier record is gone, also when the second save
    fails to encode. Two saves with different stamps keep both files
    readable under their own names. *)
Theorem log_named_by_second :
  forall (datetime : Type) (strftime : datetime -> string -> text)
         a1 a2 b1 b2 o1 t1 o2 t2 d,
    mkdir_ok d = true ->
    open_ok d = true ->
    let stamp x := strftime x "%Y%m%d_%H%M%S" in
    let outcome x c :=
      if utf8_encodable c then inr (stamp x ++ txt_suffix)
      else inl "UnicodeEncodeError"%string in
    let stored c := if utf8_encodable c then c else [] in
    let c1 := log_content datetime strftime a2 o1 t1 in
    let c2 := log_content datetime strftime b2 o2 t2 in
    let r1 := save_translation_log datetime strftime a1 a2 o1 t1 d in
    let r2 := save_translation_log datetime strftime b1 b2 o2 t2 (fst r1) in
    snd r1 = outcome a1 c1
    /\ read_file (stamp a1 ++ txt_suffix) (files (fst r1)) = Some (stored c1)
    /\ snd r2 = outcome b1 c2
    /\ read_file (stamp b1 ++ txt_suffix) (files (fst r2)) = Some (stored c2)
    /\ (stamp a1 = stamp b1 ->
        r2 = save_translation_log datetime strftime b1 b2 o2 t2 d)
    /\ (stamp a1 <> stamp b1 ->
        read_file (stamp a1 ++ txt_suffix) (files (fst r2))
        = Some (stored c1)).
Proof.
  intros datetime strftime a1 a2 b1 b2 o1 t1 o2 t2 d Hm Ho
         stamp outcome stored c1 c2 r1 r2.
  assert (E1 : r1 = (with_files
                       (write_file (stamp a1 ++ txt_suffix) (stored c1)
                                   (files d))
                       {| dir_exists := true; mkdir_ok := mkdir_ok d;
                          open_ok := open_ok d; files := files d |},
                     outcome a1 c1)).
  { subst r1. unfold save_translation_log. rewrite Hm. cbn [negb open_ok].
    rewrite Ho. cbn [negb]. cbv zeta. fold c1. fold (stamp a1).
    unfold stored, outcome. destruct (utf8_encodable c1); reflexivity. }
  assert (E2 : forall d0,
             mkdir_ok d0 = true -> open_ok d0 = true ->
             save_translation_log datetime strftime b1 b2 o2 t2 d0
             = (with_files
                  (write_file (stamp b1 ++ txt_suffix) (stored c2)
                              (files d0))
                  {| dir_exists := true; mkdir_ok := mkdir_ok d0;
                     open_ok := open_ok d0; files := files d0 |},
                outcome b1 c2)).
  { intros d0 Hm0 Ho0. unfold save_translation_log. rewrite Hm0.
    cbn [negb open_ok]. rewrite Ho0. cbn [negb]. cbv zeta. fold c2.
    fold (stamp b1).
    unfold stored, outcome. destruct (utf8_encodable c2); reflexivity. }
  assert (E3 : r2 = save_translation_log datetime strftime b1 b2 o2 t2
                                         (fst r1)) by reflexivity.
  rewrite E1 in E3. cbn [fst] in E3.
  rewrite E2 in E3 by (cbn; assumption).
  cbn [with_files files mkdir_ok open_ok dir_exists] in E3.
  rewrite E3, E1. cbn [fst snd with_files files].
  split; [reflexivity|]. split; [apply read_write_same|].
  split; [reflexivity|]. split; [apply read_write_same|]. split.
  - intros E. rewrite (E2 d Hm Ho). rewrite E.
    rewrite write_write_same. reflexivity.
  - intros Hne. rewrite read_write_other.
    + apply read_write_same.
    + intros E. apply Hne. now apply app_inv_tail in E.
Qed.

(** ** The model name in the status line *)

Lemma last_segment_from_app acc a b :
  last_segment_from acc (a ++ String ":" b)%string = last_segment_from "" b.
Proof.
  revert acc. induction a as [|c a IH]; intros acc; simpl.
  - reflexivity.
  - destruct (Ascii.eqb c ":"); apply IH.
Qed.

Lemma last_segment_from_plain acc b :
  (forall c, In c (list_ascii_of_string b) -> c <> ":"%char) ->
  last_segment_from acc b = (acc ++ b)%string.
Proof.
  revert acc. induction b as [|c b IH]; intros acc H; simpl.
  - symmetry. clear H. induction acc; simpl; [reflexivity | now f_equal].
  - destruct (Ascii.eqb c ":") eqn:E.
    + apply Ascii.eqb_eq in E. exfalso. apply (H c); [now left | exact E].
    + rewrite IH by (intros d Hd; apply H; now right).
      clear. induction acc; simpl; [reflexivity | now f_equal].
Qed.

(** X22. The model name shown after a manual translation is what follows
    the last colon of the current model label. For a provider whose model
    identifier has no colon this is the model identifier; for one whose
    identifier contains a colon only the part after its last colon is
    shown. *)
Theorem status_model_name :
  forall p : Provider,
    last_segment (model_label p) = last_segment (model p)
    /\ ((forall c, In c (list_ascii_of_string (model p)) -> c <> ":"%char) ->
        last_segment (model_label p) = model p).
Proof.
  intros p. unfold last_segment, model_label.
  change (name p ++ ":" ++ model p)%string
    with (name p ++ String ":" (model p))%string.
  rewrite last_segment_from_app. split; [reflexivity|].
  intros H. now rewrite last_segment_from_plain.
Qed.

(** ** Sample runs *)

Lemma translated_pane_choice_witness :
  ManualTranslationWindow.input_text
    (window_with annyeonghaseyo ([32] ++ konnichiwa ++ [10; 10])%N true)
  = konnichiwa
  /\ exists later source target,
      calls (snd (fst (ManualTranslationWindow.do_translate
                         detect_half Engine.set_translation_direction
                         (Engine.translate_text detect_half no_rules answering)
                         quiet_env
                         (window_with annyeonghaseyo
                                      ([32] ++ konnichiwa ++ [10; 10])%N true)
                         sample_shell)))
      = later ++ [CallSetDirection source target; CallDetect konnichiwa].
Proof.
  destruct (translated_pane_choice
              detect_half Engine.set_translation_direction
              (Engine.translate_text detect_half no_rules answering)
              quiet_env
              (window_with annyeonghaseyo
                           ([32] ++ konnichiwa ++ [10; 10])%N true)
              sample_shell sample_translator) as [H1 H2].
  split; [exact H1|]. apply H2; reflexivity.
Defined.

Lemma copy_result_effects_witness :
  ManualTranslationWindow.copy_result
    quiet_env (window_with annyeonghaseyo [32; 10]%N true) sample_shell
  = (window_with annyeonghaseyo [32; 10]%N true, sample_shell, None)
  /\ clipboard
       (snd (fst (ManualTranslationWindow.copy_result
                    quiet_env
                    (window_with annyeonghaseyo (konnichiwa ++ [32])%N true)
                    sample_shell)))
     = konnichiwa.
Proof.
  destruct (copy_result_effects
              quiet_env (window_with annyeonghaseyo [32; 10]%N true)
              sample_shell) as (Hblank & _).
  destruct (copy_result_effects
              quiet_env
              (window_with annyeonghaseyo (konnichiwa ++ [32])%N true)
              sample_shell) as (_ & Hcopy & _).
  split.
  - apply Hblank. repeat constructor.
  - rewrite Hcopy; [reflexivity | | reflexivity].
    intros B. apply strip_empty_iff in B. discriminate B.
Defined.

Lemma manual_translate_failure_witness :
  status_label
    (fst (fst (ManualTranslationWindow.do_translate
                 detect_half Engine.set_translation_direction
                 (Engine.translate_text detect_half no_rules unreachable)
                 quiet_env (window_with annyeonghaseyo konnichiwa true)
                 sample_shell)))
  = StFailed "AllProvidersFailed"
  /\ original_text
       (fst (fst (ManualTranslationWindow.do_translate
                    detect_half Engine.set_translation_direction
                    (Engine.translate_text detect_half no_rules unreachable)
                    quiet_env (window_with annyeonghaseyo konnichiwa true)
                    sample_shell)))
     = konnichiwa.
Proof.
  edestruct (manual_translate_failure
               detect_half Engine.set_translation_direction
               (Engine.translate_text detect_half no_rules unreachable)
               quiet_env (window_with annyeonghaseyo konnichiwa true)
               sample_shell sample_translator)
    as (_ & Hstatus & Horig & _); [reflexivity ..|].
  split; [exact Hstatus | exact Horig].
Defined.




Lemma hotkey_without_translator_witness :
  do_translate (Engine.detect_and_set_direction detect_half)
               (Engine.translate_text detect_half no_rules answering)
               quiet_env fresh_shell
  = (call (CallErrorPopup "번역기가 초기화되지 않았습니다.") fresh_shell, None).
Proof.
  apply (hotkey_without_translator
           (Engine.detect_and_set_direction detect_half)
           (Engine.translate_text detect_half no_rules answering)
           quiet_env fresh_shell); reflexivity.
Defined.

Lemma hotkey_translate_failure_witness :
  clipboard
    (fst (do_translate (Engine.detect_and_set_direction detect_half)
                       (Engine.translate_text detect_half no_rules unreachable)
                       greeting_env sample_shell))
  = annyeonghaseyo
  /\ translations
       (fst (do_translate
               (Engine.detect_and_set_direction detect_half)
               (Engine.translate_text detect_half no_rules unreachable)
               greeting_env sample_shell))
     = [].
Proof.
  edestruct (hotkey_translate_failure
               (Engine.detect_and_set_direction detect_half)
               (Engine.translate_text detect_half no_rules unreachable)
               greeting_env sample_shell sample_translator annyeonghaseyo)
    as (_ & Hclip & Hlog & _); [reflexivity ..|].
  split; [exact Hclip | exact Hlog].
Defined.


Lemma popup_retranslate_failure_witness :
  TranslationPopup.popup_translated
    (fst (fst (TranslationPopup.do_retranslate
                 (Engine.detect_and_set_direction detect_half)
                 (Engine.translate_text detect_half no_rules unreachable)
                 quiet_env sample_popup sample_shell)))
  = konnichiwa
  /\ TranslationPopup.popup_status
       (fst (fst (TranslationPopup.do_retranslate
                    (Engine.detect_and_set_direction detect_half)
                    (Engine.translate_text detect_half no_rules unreachable)
                    quiet_env sample_popup sample_shell)))
     = TranslationPopup.PsFailed "AllProvidersFailed".
Proof.
  edestruct (popup_retranslate_failure
               (Engine.detect_and_set_direction detect_half)
               (Engine.translate_text detect_half no_rules unreachable)
               quiet_env sample_popup sample_shell sample_translator)
    as (_ & _ & Hpane & Hstatus & _); [reflexivity ..|].
  split; [exact Hpane | exact Hstatus].
Defined.

Lemma popup_retranslate_success_witness :
  TranslationPopup.popup_original
    (fst (fst (TranslationPopup.do_retranslate
                 (Engine.detect_and_set_direction detect_half)
                 (Engine.translate_text detect_half no_rules answering)
                 quiet_env sample_popup sample_shell)))
  = konnichiwa
  /\ clipboard
       (snd (fst (TranslationPopup.do_retranslate
                    (Engine.detect_and_set_direction detect_half)
                    (Engine.translate_text detect_half no_rules answering)
                    quiet_env sample_popup sample_shell)))
     = konnichiwa.
Proof.
  edestruct (popup_retranslate_success
               (Engine.detect_and_set_direction detect_half)
               (Engine.translate_text detect_half no_rules answering)
               quiet_env sample_popup sample_shell sample_translator)
    as (_ & Horig & _ & _ & Hclip & _); [reflexivity ..|].
  split; [exact Horig | exact Hclip].
Defined.

Lemma popup_retranslate_frame_witness :
  TranslationPopup.do_retranslate
    (Engine.detect_and_set_direction detect_half)
    (Engine.translate_text detect_half no_rules answering)
    quiet_env
    (TranslationPopup.__init__ annyeonghaseyo [32; 10]%N "완료" "" 0)
    sample_shell
  = (TranslationPopup.__init__ annyeonghaseyo [32; 10]%N "완료" "" 0,
     sample_shell, None).
Proof.
  destruct (popup_retranslate_frame
              (Engine.detect_and_set_direction detect_half)
              (Engine.translate_text detect_half no_rules answering)
              quiet_env
              (TranslationPopup.__init__ annyeonghaseyo [32; 10]%N "완료" "" 0)
              sample_shell) as (_ & _ & _ & _ & H).
  apply (H sample_translator); [reflexivity | repeat constructor].
Defined.

Lemma init_failure_keeps_translator_witness :
  translator
    (fst (init_translator Engine.construct no_prompts
                          (sample_disk sentinel_config) sample_globals))
  = Some sample_translator.
Proof.
  destruct (init_failure_keeps_translator
              Engine.construct no_prompts (sample_disk sentinel_config)
              sample_globals
              (fst (init_translator Engine.construct no_prompts
                                    (sample_disk sentinel_config)
                                    sample_globals))
              MsgApiKeyMissing eq_refl) as (H & _).
  exact H.
Defined.

Lemma init_success_iff_witness :
  exists g',
    init_translator Engine.construct no_prompts (sample_disk working_config)
                    fresh_globals
    = (g', InitReturned true MsgOK).
Proof.
  eexists.
  apply (proj2 (init_success_iff
                  Engine.construct no_prompts (sample_disk working_config)
                  fresh_globals _ MsgOK)).
  split; [reflexivity|].
  eexists working_config, _, _.
  repeat split; reflexivity.
Defined.

Lemma single_instance_lock_witness :
  check_already_running sample_int sample_lower
                        (fst (create_lock sample_str sample_host)) = true
  /\ main sample_int sample_str sample_lower Engine.construct no_prompts
          quiet_env (sample_disk working_config)
          (fst (create_lock sample_str sample_host)) fresh_shell
     = (fst (create_lock sample_str sample_host),
        call (CallErrorPopup already_running_message) fresh_shell, SysExit 0)
  /\ check_already_running
       sample_int sample_lower
       (fst (on_quit (fst (create_lock sample_str sample_host)))) = false.
Proof.
  destruct (single_instance_lock
              sample_int sample_str sample_lower Engine.construct no_prompts
              sample_host
              [80; 121; 116; 104; 111; 110; 119; 46; 101; 120; 101]%N
              eq_refl eq_refl eq_refl eq_refl) as (_ & Hcheck & Hsecond & Hquit).
  split; [exact Hcheck|]. split.
  - apply Hsecond; reflexivity.
  - apply Hquit. reflexivity.
Defined.

Lemma failed_start_leaves_lock_witness :
  lock (fst (fst (main sample_int sample_str sample_lower Engine.construct
                       no_prompts quiet_env (sample_disk sentinel_config)
                       sample_host fresh_shell)))
  = LockContent [52; 51; 50; 49]%N
  /\ snd (main sample_int sample_str sample_lower Engine.construct
               no_prompts quiet_env (sample_disk sentinel_config)
               sample_host fresh_shell)
     = SysExit 1
  /\ check_already_running sample_int sample_lower later_host = false.
Proof.
  destruct (failed_start_leaves_lock
              sample_int sample_str sample_lower Engine.construct no_prompts
              quiet_env (sample_disk sentinel_config) sample_host fresh_shell
              eq_refl eq_refl) as (Hlock & Hexit & Hlater).
  split; [exact Hlock|]. split.
  - edestruct Hexit as (H & _); [reflexivity | reflexivity | exact H].
  - apply Hlater; [reflexivity|].
    intros pid Hpid. vm_compute in Hpid. injection Hpid as <-. reflexivity.
Defined.

Lemma log_named_by_second_witness :
  let r1 := save_translation_log N sample_strftime 5000%N 5001%N
                                 annyeonghaseyo konnichiwa empty_log_dir in
  let r2 := save_translation_log N sample_strftime 5999%N 6000%N
                                 lone_surrogate annyeonghaseyo (fst r1) in
  snd r1 = inr [53; 46; 116; 120; 116]%N
  /\ snd r2 = inl "UnicodeEncodeError"%string
  /\ read_file [53; 46; 116; 120; 116]%N (files (fst r2)) = Some []
  /\ r2 = save_translation_log N sample_strftime 5999%N 6000%N
                               lone_surrogate annyeonghaseyo empty_log_dir.
Proof.
  destruct (log_named_by_second
              N sample_strftime 5000%N 5001%N 5999%N 6000%N
              annyeonghaseyo konnichiwa lone_surrogate annyeonghaseyo
              empty_log_dir eq_refl eq_refl)
    as (H1 & _ & H2 & H3 & Hsame & _).
  split; [exact H1|]. split; [exact H2|]. split; [exact H3|].
  apply Hsame. reflexivity.
Defined.

Lemma status_model_name_witness :
  last_segment
    (model_label {| name := "ollama"; model := "llama3:8b";
                    credential := "local" |}) = "8b"
  /\ last_segment (model_label provider_a) = "gpt-4o-mini".
Proof.
  destruct (status_model_name {| name := "ollama"; model := "llama3:8b";
                                 credential := "local" |}) as [H1 _].
  destruct (status_model_name provider_a) as [_ H2].
  split.
  - rewrite H1. reflexivity.
  - apply H2. simpl. intros c Hc.
    repeat (destruct Hc as [<-|Hc]; [discriminate|]). contradiction.
Defined.
